(** * FlatBufferConfigLoader: the section mappers of
      score/mw/com/impl/configuration/flatbuffer_config_loader.cpp

    The four mappers (CreateServiceTypes, CreateServiceInstances,
    CreateGlobalConfiguration, CreateTracingConfiguration) are embedded as
    functions over a model of the verified FlatBuffer reader.  A call of
    [std::terminate] after a fatal log line is an [Outcome] of its own; the
    unordered maps of the configuration model are [gmap]s. *)

From stdpp Require Import gmap strings list fin_maps.

Local Open Scope Z_scope.

(** ** Fixed-width conversions written in the source *)

(** [static_cast<uint8_t>(x)] *)
Definition to_uint8 (x : Z) : Z := x mod 2 ^ 8.
(** construction of a [std::optional<uint16_t>] from an integer *)
Definition to_uint16 (x : Z) : Z := x mod 2 ^ 16.
(** [static_cast<int32_t>(x)] *)
Definition to_int32 (x : Z) : Z := (x + 2 ^ 31) mod 2 ^ 32 - 2 ^ 31.
(** [static_cast<std::size_t>(x)], 64-bit target *)
Definition to_size_t (x : Z) : Z := x mod 2 ^ 64.
(** element conversion of [std::vector<uid_t>(begin, end)], 32-bit [uid_t] *)
Definition to_uid_t (x : Z) : Z := x mod 2 ^ 32.

(** ** The FlatBuffer reader (mw_com_config_generated.h)

    A pointer accessor that the source tests against [nullptr], or that a
    claim speaks of as absent, is an [option]; an accessor the source
    dereferences under a "marked as required" comment is a plain field. *)

Module AsilLevel.
Inductive t := QM | B | OTHER.
End AsilLevel.

Module BindingType.
Inductive t := SHM | SOME_IP | OTHER.
End BindingType.

Module PermissionCheckStrategy.
Inductive t := STRICT | RELAXED | OTHER.
End PermissionCheckStrategy.

Module Version.
Record t := mk { major : Z; minor : Z }.
End Version.

Module BindingEvent.
Record t := mk { event_name : string; event_id : Z }.
End BindingEvent.

Module BindingField.
Record t := mk { field_name : string; field_id : Z }.
End BindingField.

Module BindingMethod.
Record t := mk { method_name : string; method_id : Z }.
End BindingMethod.

Module Binding.
Record t := mk {
    binding : BindingType.t;
    service_id : Z;
    events : option (list BindingEvent.t);
    fields : option (list BindingField.t);
    methods : option (list BindingMethod.t) }.
End Binding.

Module ServiceType.
Record t := mk {
    service_type_name : string;
    version : option Version.t;
    bindings : list Binding.t }.
End ServiceType.

Module InstanceEvent.
Record t := mk {
    event_name : string;
    number_of_sample_slots : Z;
    max_subscribers : Z;
    enforce_max_samples : bool;
    number_of_ipc_tracing_slots : Z }.
End InstanceEvent.

Module InstanceField.
Record t := mk {
    field_name : string;
    number_of_sample_slots : Z;
    max_subscribers : Z;
    enforce_max_samples : bool;
    number_of_ipc_tracing_slots : Z }.
End InstanceField.

Module InstanceMethod.
Record t := mk { method_name : string; queue_size : Z }.
End InstanceMethod.

Module Permissions.
Record t := mk { qm : option (list Z); b : option (list Z) }.
End Permissions.

Module Instance.
Record t := mk {
    instance_id : Z;
    asil_level : AsilLevel.t;
    binding : BindingType.t;
    events : option (list (option InstanceEvent.t));
    fields : option (list (option InstanceField.t));
    methods : option (list (option InstanceMethod.t));
    allowed_consumer : option Permissions.t;
    allowed_provider : option Permissions.t;
    permission_checks : PermissionCheckStrategy.t;
    shm_size : Z;
    control_asil_b_shm_size : Z;
    control_qm_shm_size : Z }.
End Instance.

Module ServiceInstance.
Record t := mk {
    instance_specifier : string;
    service_type_name : string;
    version : option Version.t;
    instances : option (list Instance.t) }.
End ServiceInstance.

Module QueueSize.
Record t := mk { qm_receiver : Z; b_receiver : Z; b_sender : Z }.
End QueueSize.

Module Global.
Record t := mk {
    asil_level : AsilLevel.t;
    application_id : Z;
    queue_size : option QueueSize.t }.
End Global.

Module Tracing.
Record t := mk {
    enable : bool;
    application_instance_id : string;
    trace_filter_config_path : option string }.
End Tracing.

Module ComConfiguration.
Record t := mk {
    service_types : list ServiceType.t;
    service_instances : list ServiceInstance.t;
    global : option Global.t;
    tracing : option Tracing.t }.
End ComConfiguration.

(** ** The configuration model *)

Inductive QualityType := kASIL_QM | kASIL_B.

#[global] Instance QualityType_eq_dec : EqDecision QualityType.
Proof. solve_decision. Defined.

#[global] Instance QualityType_countable : Countable QualityType.
Proof.
  refine (inj_countable' (λ q, match q with kASIL_QM => false | kASIL_B => true end)
                         (λ b : bool, if b then kASIL_B else kASIL_QM) _).
  by intros [].
Defined.

(** Modelled from the spec: make_ServiceIdentifierType and the key equality
    of ServiceIdentifierType (service_identifier_type.h is not part of the
    sources): "(name: string, major: uint, minor: uint) triple", compared by
    "exact-key equality". *)
Definition ServiceIdentifierType : Type := string * Z * Z.

Definition make_ServiceIdentifierType (name : string) (major minor : Z)
  : ServiceIdentifierType := (name, major, minor).

Module LolaServiceTypeDeployment.
Record t := mk {
    service_id_ : Z;
    events_ : gmap string Z;
    fields_ : gmap string Z;
    methods_ : gmap string Z }.
End LolaServiceTypeDeployment.

(** [ServiceTypeDeployment::BindingInformation], a variant whose first
    alternative is [score::cpp::blank]. *)
Inductive TypeBindingInformation :=
  | blank
  | LolaType (d : LolaServiceTypeDeployment.t).

Record ServiceTypeDeployment := mkServiceTypeDeployment {
  binding_info_ : TypeBindingInformation }.

(** ** Fatal diagnostics and outcomes *)

(** One constructor per [LogFatal] line of the mappers. *)
Inductive Diagnostic :=
  | ServiceTypeMissingVersion
  | SomeIpBindingNotSupported
  | UnknownBindingType
  | NoShmBindingForServiceType (id : ServiceIdentifierType)
  | ServiceTypeDeployedTwice
  | InvalidInstanceSpecifier
  | MissingDeploymentInstances
  | MultipleShmBindings (id : ServiceIdentifierType)
  | SomeIpBindingCannotBeParsed
  | NoShmBindingFound (id : ServiceIdentifierType).

(** What a mapper does: it returns, or it logs one fatal line and calls
    [std::terminate], or it reads through a null pointer. *)
Inductive Outcome (A : Type) :=
  | Returned (a : A)
  | Terminated (d : Diagnostic)
  | NullDereference.
Arguments Returned {A} a.
Arguments Terminated {A} d.
Arguments NullDereference {A}.

Definition bind {A B} (o : Outcome A) (k : A → Outcome B) : Outcome B :=
  match o with
  | Returned a => k a
  | Terminated d => Terminated d
  | NullDereference => NullDereference
  end.

Notation "x ←! o ; k" := (bind o (λ x, k))
  (at level 20, o at level 100, k at level 200, right associativity,
   format "x  ←!  o ;  '/' k").

Definition is_fatal {A} (o : Outcome A) : Prop := ∃ d, o = Terminated d.

(** A range-based [for] whose body may [break]. *)
Inductive LoopStep (S : Type) :=
  | Continue (s : S)
  | Break (s : S).
Arguments Continue {S} s.
Arguments Break {S} s.

Fixpoint for_each {A S} (body : A → S → Outcome (LoopStep S))
    (l : list A) (s : S) : Outcome S :=
  match l with
  | [] => Returned s
  | x :: rest =>
      match body x s with
      | Returned (Continue s') => for_each body rest s'
      | Returned (Break s') => Returned s'
      | Terminated d => Terminated d
      | NullDereference => NullDereference
      end
  end.

(** [m.emplace(k, v)] on a map with unique keys: nothing is stored when the
    key is present, and [.second] tells whether the insertion happened. *)
Definition emplace `{Countable K} {V} (k : K) (v : V) (m : gmap K V)
  : gmap K V * bool :=
  match m !! k with
  | Some _ => (m, false)
  | None => (<[k := v]> m, true)
  end.

(** ** CreateServiceTypes *)

Definition EventIdMapping (b : Binding.t) : gmap string Z :=
  match Binding.events b with
  | Some l =>
      foldl (λ events event,
               (emplace (BindingEvent.event_name event)
                        (to_uint8 (BindingEvent.event_id event)) events).1) ∅ l
  | None => ∅
  end.

Definition FieldIdMapping (b : Binding.t) : gmap string Z :=
  match Binding.fields b with
  | Some l =>
      foldl (λ fields field,
               (emplace (BindingField.field_name field)
                        (to_uint8 (BindingField.field_id field)) fields).1) ∅ l
  | None => ∅
  end.

Definition MethodIdMapping (b : Binding.t) : gmap string Z :=
  match Binding.methods b with
  | Some l =>
      foldl (λ methods method,
               (emplace (BindingMethod.method_name method)
                        (to_uint8 (BindingMethod.method_id method)) methods).1) ∅ l
  | None => ∅
  end.

(** The SHM branch of the binding loop, up to the assignment of
    [binding_info]. *)
Definition CreateLolaServiceTypeDeployment (b : Binding.t)
  : LolaServiceTypeDeployment.t :=
  LolaServiceTypeDeployment.mk (Binding.service_id b)
    (EventIdMapping b) (FieldIdMapping b) (MethodIdMapping b).

(** Body of the loop over [service_type->bindings()]. *)
Definition type_binding_step (b : Binding.t) (binding_info : TypeBindingInformation)
  : Outcome (LoopStep TypeBindingInformation) :=
  match Binding.binding b with
  | BindingType.SHM => Returned (Break (LolaType (CreateLolaServiceTypeDeployment b)))
  | BindingType.SOME_IP => Terminated SomeIpBindingNotSupported
  | BindingType.OTHER => Terminated UnknownBindingType
  end.

(** One iteration of the loop over [com_config_->service_types()] up to the
    [emplace]: the key and the deployment it builds. *)
Definition CreateServiceType (service_type : ServiceType.t)
  : Outcome (ServiceIdentifierType * ServiceTypeDeployment) :=
  match ServiceType.version service_type with
  | None => Terminated ServiceTypeMissingVersion
  | Some version =>
      let service_identifier :=
        make_ServiceIdentifierType (ServiceType.service_type_name service_type)
          (Version.major version) (Version.minor version) in
      binding_info ←! for_each type_binding_step (ServiceType.bindings service_type) blank;
      match binding_info with
      | blank => Terminated (NoShmBindingForServiceType service_identifier)
      | LolaType _ =>
          Returned (service_identifier, mkServiceTypeDeployment binding_info)
      end
  end.

(** Body of the loop over [com_config_->service_types()]. *)
Definition service_type_step (service_type : ServiceType.t)
    (service_type_deployments : gmap ServiceIdentifierType ServiceTypeDeployment)
  : Outcome (LoopStep (gmap ServiceIdentifierType ServiceTypeDeployment)) :=
  entry ←! CreateServiceType service_type;
  let inserted := emplace entry.1 entry.2 service_type_deployments in
  if inserted.2 then Returned (Continue inserted.1)
  else Terminated ServiceTypeDeployedTwice.

Definition CreateServiceTypes (com_config : ComConfiguration.t)
  : Outcome (gmap ServiceIdentifierType ServiceTypeDeployment) :=
  for_each service_type_step (ComConfiguration.service_types com_config) ∅.

(** ** The instance-level configuration model *)

Module LolaEventInstanceDeployment.
Record t := mk {
    number_of_sample_slots_ : option Z;
    max_subscribers_ : option Z;
    max_concurrent_allocations_ : option Z;
    enforce_max_samples_ : bool;
    number_of_tracing_slots_ : Z }.
End LolaEventInstanceDeployment.

Module LolaFieldInstanceDeployment.
Record t := mk {
    number_of_sample_slots_ : option Z;
    max_subscribers_ : option Z;
    max_concurrent_allocations_ : option Z;
    enforce_max_samples_ : bool;
    number_of_tracing_slots_ : Z }.
End LolaFieldInstanceDeployment.

Module LolaMethodInstanceDeployment.
Record t := mk { queue_size_ : option Z }.
End LolaMethodInstanceDeployment.

Module LolaServiceInstanceDeployment.
Record t := mk {
    instance_id_ : option Z;
    events_ : gmap string LolaEventInstanceDeployment.t;
    fields_ : gmap string LolaFieldInstanceDeployment.t;
    methods_ : gmap string LolaMethodInstanceDeployment.t;
    strict_permissions_ : bool;
    allowed_consumer_ : gmap QualityType (list Z);
    allowed_provider_ : gmap QualityType (list Z);
    shared_memory_size_ : option Z;
    control_asil_b_memory_size_ : option Z;
    control_qm_memory_size_ : option Z }.
End LolaServiceInstanceDeployment.

(** Modelled from the spec: the seven-argument constructor of
    LolaServiceInstanceDeployment (lola_service_instance_deployment.h is not
    part of the sources): it stores its arguments and leaves the three
    "optional shared-memory size overrides" unset. *)
Definition LolaServiceInstanceDeployment_new
    (instance_id : option Z)
    (events : gmap string LolaEventInstanceDeployment.t)
    (fields : gmap string LolaFieldInstanceDeployment.t)
    (methods : gmap string LolaMethodInstanceDeployment.t)
    (strict_permission : bool)
    (allowed_consumer allowed_provider : gmap QualityType (list Z))
  : LolaServiceInstanceDeployment.t :=
  LolaServiceInstanceDeployment.mk instance_id events fields methods
    strict_permission allowed_consumer allowed_provider None None None.

(** Modelled from the spec: InstanceSpecifier (instance_specifier.h is not
    part of the sources) is "a validated string identifying one deployed
    instance of a service type"; it is compared and hashed as that string. *)
Abbreviation InstanceSpecifier := string.

Record ServiceInstanceDeployment := mkServiceInstanceDeployment {
  service_ : ServiceIdentifierType;
  bindingInfo_ : LolaServiceInstanceDeployment.t;
  asilLevel_ : QualityType;
  instance_specifier_ : InstanceSpecifier }.

(** Modelled from the spec: ShmSizeCalculationMode (shm_size_calc_mode.h is
    not part of the sources).  The source names [kSimulation] only, "the
    single currently supported value"; [kOtherMode] stands for every other
    enumerator. *)
Inductive ShmSizeCalculationMode := kSimulation | kOtherMode.

(** Modelled from the spec: GlobalConfiguration (global_configuration.h is
    not part of the sources): "process-wide ASIL level, optional application
    id, optional per-quality-level receiver queue sizes, a sender queue size,
    and the shared-memory size calculation mode"; each setter stores its
    argument in the member it names. *)
Record GlobalConfiguration := mkGlobalConfiguration {
  process_asil_level_ : QualityType;
  application_id_ : option Z;
  receiver_qm_message_queue_size_ : Z;
  receiver_b_message_queue_size_ : Z;
  sender_message_queue_size_ : Z;
  shm_size_calc_mode_ : ShmSizeCalculationMode }.

Definition SetProcessAsilLevel (q : QualityType) (c : GlobalConfiguration) :=
  mkGlobalConfiguration q (application_id_ c)
    (receiver_qm_message_queue_size_ c) (receiver_b_message_queue_size_ c)
    (sender_message_queue_size_ c) (shm_size_calc_mode_ c).

Definition SetApplicationId (id : Z) (c : GlobalConfiguration) :=
  mkGlobalConfiguration (process_asil_level_ c) (Some id)
    (receiver_qm_message_queue_size_ c) (receiver_b_message_queue_size_ c)
    (sender_message_queue_size_ c) (shm_size_calc_mode_ c).

Definition SetReceiverMessageQueueSize (q : QualityType) (n : Z)
    (c : GlobalConfiguration) :=
  match q with
  | kASIL_QM =>
      mkGlobalConfiguration (process_asil_level_ c) (application_id_ c)
        n (receiver_b_message_queue_size_ c)
        (sender_message_queue_size_ c) (shm_size_calc_mode_ c)
  | kASIL_B =>
      mkGlobalConfiguration (process_asil_level_ c) (application_id_ c)
        (receiver_qm_message_queue_size_ c) n
        (sender_message_queue_size_ c) (shm_size_calc_mode_ c)
  end.

Definition SetSenderMessageQueueSize (n : Z) (c : GlobalConfiguration) :=
  mkGlobalConfiguration (process_asil_level_ c) (application_id_ c)
    (receiver_qm_message_queue_size_ c) (receiver_b_message_queue_size_ c)
    n (shm_size_calc_mode_ c).

Definition SetShmSizeCalcMode (m : ShmSizeCalculationMode)
    (c : GlobalConfiguration) :=
  mkGlobalConfiguration (process_asil_level_ c) (application_id_ c)
    (receiver_qm_message_queue_size_ c) (receiver_b_message_queue_size_ c)
    (sender_message_queue_size_ c) m.

(** Modelled from the spec: TracingConfiguration (tracing_configuration.h is
    not part of the sources): "enabled flag, required application-instance id
    string, trace-filter-config file path"; each setter stores its argument
    in the member it names. *)
Record TracingConfiguration := mkTracingConfiguration {
  tracing_enabled_ : bool;
  application_instance_id_ : string;
  trace_filter_config_path_ : string }.

Definition SetTracingEnabled (b : bool) (c : TracingConfiguration) :=
  mkTracingConfiguration b (application_instance_id_ c) (trace_filter_config_path_ c).

Definition SetApplicationInstanceID (s : string) (c : TracingConfiguration) :=
  mkTracingConfiguration (tracing_enabled_ c) s (trace_filter_config_path_ c).

Definition SetTracingTraceFilterConfigPath (s : string) (c : TracingConfiguration) :=
  mkTracingConfiguration (tracing_enabled_ c) (application_instance_id_ c) s.

(** ** Helpers of the anonymous namespace *)

Definition ConvertAsilLevel (asil_level : AsilLevel.t) : QualityType :=
  match asil_level with
  | AsilLevel.B => kASIL_B
  | _ => kASIL_QM
  end.

(** The [LolaEventInstanceDeployment event_deploy(...)] of ParseEventDeployments. *)
Definition event_deploy (event : InstanceEvent.t) : LolaEventInstanceDeployment.t :=
  let slots :=
    if 0 <? InstanceEvent.number_of_sample_slots event
    then Some (to_uint16 (InstanceEvent.number_of_sample_slots event)) else None in
  let max_subs :=
    if 0 <? InstanceEvent.max_subscribers event
    then Some (to_uint8 (InstanceEvent.max_subscribers event)) else None in
  LolaEventInstanceDeployment.mk slots max_subs None
    (InstanceEvent.enforce_max_samples event)
    (to_uint8 (InstanceEvent.number_of_ipc_tracing_slots event)).

Definition ParseEventDeployments (instance : Instance.t)
  : gmap string LolaEventInstanceDeployment.t :=
  match Instance.events instance with
  | Some l =>
      foldl (λ events event,
               match event with
               | Some event =>
                   (emplace (InstanceEvent.event_name event) (event_deploy event) events).1
               | None => events
               end) ∅ l
  | None => ∅
  end.

(** The [LolaFieldInstanceDeployment field_deploy(...)] of ParseFieldDeployments. *)
Definition field_deploy (field : InstanceField.t) : LolaFieldInstanceDeployment.t :=
  let slots :=
    if 0 <? InstanceField.number_of_sample_slots field
    then Some (to_uint16 (InstanceField.number_of_sample_slots field)) else None in
  let max_subs :=
    if 0 <? InstanceField.max_subscribers field
    then Some (to_uint8 (InstanceField.max_subscribers field)) else None in
  LolaFieldInstanceDeployment.mk slots max_subs None
    (InstanceField.enforce_max_samples field)
    (to_uint8 (InstanceField.number_of_ipc_tracing_slots field)).

Definition ParseFieldDeployments (instance : Instance.t)
  : gmap string LolaFieldInstanceDeployment.t :=
  match Instance.fields instance with
  | Some l =>
      foldl (λ fields field,
               match field with
               | Some field =>
                   (emplace (InstanceField.field_name field) (field_deploy field) fields).1
               | None => fields
               end) ∅ l
  | None => ∅
  end.

(** The [LolaMethodInstanceDeployment method_deploy(queue_size)] of
    ParseMethodDeployments. *)
Definition method_deploy (method : InstanceMethod.t) : LolaMethodInstanceDeployment.t :=
  let queue_size :=
    if 0 <? InstanceMethod.queue_size method
    then Some (to_uint8 (InstanceMethod.queue_size method)) else None in
  LolaMethodInstanceDeployment.mk queue_size.

Definition ParseMethodDeployments (instance : Instance.t)
  : gmap string LolaMethodInstanceDeployment.t :=
  match Instance.methods instance with
  | Some l =>
      foldl (λ methods method,
               match method with
               | Some method =>
                   (emplace (InstanceMethod.method_name method) (method_deploy method) methods).1
               | None => methods
               end) ∅ l
  | None => ∅
  end.

Definition ParsePermissions (permissions : option Permissions.t)
  : gmap QualityType (list Z) :=
  match permissions with
  | Some permissions =>
      let permission_map : gmap QualityType (list Z) := ∅ in
      let permission_map :=
        match Permissions.qm permissions with
        | Some qm => (emplace kASIL_QM (to_uid_t <$> qm) permission_map).1
        | None => permission_map
        end in
      match Permissions.b permissions with
      | Some b => (emplace kASIL_B (to_uid_t <$> b) permission_map).1
      | None => permission_map
      end
  | None => ∅
  end.

Definition SetMemorySizes (deployment : LolaServiceInstanceDeployment.t)
    (instance : Instance.t) : LolaServiceInstanceDeployment.t :=
  let shared :=
    if 0 <? Instance.shm_size instance
    then Some (to_size_t (Instance.shm_size instance))
    else LolaServiceInstanceDeployment.shared_memory_size_ deployment in
  let control_b :=
    if 0 <? Instance.control_asil_b_shm_size instance
    then Some (to_size_t (Instance.control_asil_b_shm_size instance))
    else LolaServiceInstanceDeployment.control_asil_b_memory_size_ deployment in
  let control_qm :=
    if 0 <? Instance.control_qm_shm_size instance
    then Some (to_size_t (Instance.control_qm_shm_size instance))
    else LolaServiceInstanceDeployment.control_qm_memory_size_ deployment in
  LolaServiceInstanceDeployment.mk
    (LolaServiceInstanceDeployment.instance_id_ deployment)
    (LolaServiceInstanceDeployment.events_ deployment)
    (LolaServiceInstanceDeployment.fields_ deployment)
    (LolaServiceInstanceDeployment.methods_ deployment)
    (LolaServiceInstanceDeployment.strict_permissions_ deployment)
    (LolaServiceInstanceDeployment.allowed_consumer_ deployment)
    (LolaServiceInstanceDeployment.allowed_provider_ deployment)
    shared control_b control_qm.

Definition CreateLolaServiceInstanceDeployment (instance : Instance.t)
  : LolaServiceInstanceDeployment.t :=
  let instance_id :=
    if negb (Instance.instance_id instance =? 0)
    then Some (Instance.instance_id instance) else None in
  let events := ParseEventDeployments instance in
  let fields := ParseFieldDeployments instance in
  let methods := ParseMethodDeployments instance in
  let allowed_consumer := ParsePermissions (Instance.allowed_consumer instance) in
  let allowed_provider := ParsePermissions (Instance.allowed_provider instance) in
  let strict_permission :=
    match Instance.permission_checks instance with
    | PermissionCheckStrategy.STRICT => true
    | _ => false
    end in
  let deployment :=
    LolaServiceInstanceDeployment_new instance_id events fields methods
      strict_permission allowed_consumer allowed_provider in
  SetMemorySizes deployment instance.

(** ** The mappers that call into absent collaborators *)

Section Mappers.

(** The format rules of [InstanceSpecifier::Create], the default-constructed
    [GlobalConfiguration] and the default-constructed [TracingConfiguration]
    are defined outside the sources. *)
Variable valid_instance_specifier : string → bool.
Variable default_GlobalConfiguration : GlobalConfiguration.
Variable default_TracingConfiguration : TracingConfiguration.

(** Modelled from the spec: InstanceSpecifier::Create, "parse and validate
    the instance specifier string"; an accepted string is the specifier. *)
Definition InstanceSpecifier_Create (s : string) : option InstanceSpecifier :=
  if valid_instance_specifier s then Some s else None.

(** Body of the loop over [service_instance->instances()]. *)
Definition instance_binding_step (service_identifier : ServiceIdentifierType)
    (instance : Instance.t) (shm_instance : option Instance.t)
  : Outcome (LoopStep (option Instance.t)) :=
  match Instance.binding instance with
  | BindingType.SHM =>
      match shm_instance with
      | Some _ => Terminated (MultipleShmBindings service_identifier)
      | None => Returned (Continue (Some instance))
      end
  | BindingType.SOME_IP => Terminated SomeIpBindingCannotBeParsed
  | BindingType.OTHER => Terminated UnknownBindingType
  end.

(** One iteration of the loop over [com_config_->service_instances()] up to
    the [emplace]: the key and the deployment it builds. *)
Definition CreateServiceInstance (service_instance : ServiceInstance.t)
  : Outcome (InstanceSpecifier * ServiceInstanceDeployment) :=
  match InstanceSpecifier_Create (ServiceInstance.instance_specifier service_instance) with
  | None => Terminated InvalidInstanceSpecifier
  | Some instance_spec =>
      match ServiceInstance.version service_instance with
      | None => NullDereference
      | Some version =>
          let service_identifier :=
            make_ServiceIdentifierType
              (ServiceInstance.service_type_name service_instance)
              (Version.major version) (Version.minor version) in
          match ServiceInstance.instances service_instance with
          | None => Terminated MissingDeploymentInstances
          | Some instances =>
              if (length instances =? 0)%nat then Terminated MissingDeploymentInstances
              else
                shm_instance ←!
                  for_each (instance_binding_step service_identifier) instances None;
                match shm_instance with
                | None => Terminated (NoShmBindingFound service_identifier)
                | Some shm_instance =>
                    let asil_level := ConvertAsilLevel (Instance.asil_level shm_instance) in
                    let binding_info := CreateLolaServiceInstanceDeployment shm_instance in
                    Returned (instance_spec,
                              mkServiceInstanceDeployment service_identifier
                                binding_info asil_level instance_spec)
                end
          end
      end
  end.

(** Body of the loop over [com_config_->service_instances()]. *)
Definition service_instance_step (service_instance : ServiceInstance.t)
    (service_instances : gmap InstanceSpecifier ServiceInstanceDeployment)
  : Outcome (LoopStep (gmap InstanceSpecifier ServiceInstanceDeployment)) :=
  entry ←! CreateServiceInstance service_instance;
  Returned (Continue (emplace entry.1 entry.2 service_instances).1).

Definition CreateServiceInstances (com_config : ComConfiguration.t)
  : Outcome (gmap InstanceSpecifier ServiceInstanceDeployment) :=
  for_each service_instance_step (ComConfiguration.service_instances com_config) ∅.

Definition CreateGlobalConfiguration (com_config : ComConfiguration.t)
  : GlobalConfiguration :=
  let global_config := default_GlobalConfiguration in
  match ComConfiguration.global com_config with
  | Some global =>
      let asil_level := ConvertAsilLevel (Global.asil_level global) in
      let global_config := SetProcessAsilLevel asil_level global_config in
      let global_config :=
        if negb (Global.application_id global =? 0)
        then SetApplicationId (Global.application_id global) global_config
        else global_config in
      let global_config :=
        match Global.queue_size global with
        | Some queue_size =>
            let global_config :=
              SetReceiverMessageQueueSize kASIL_QM
                (to_int32 (QueueSize.qm_receiver queue_size)) global_config in
            let global_config :=
              SetReceiverMessageQueueSize kASIL_B
                (to_int32 (QueueSize.b_receiver queue_size)) global_config in
            SetSenderMessageQueueSize (to_int32 (QueueSize.b_sender queue_size))
              global_config
        | None => global_config
        end in
      let shm_mode := kSimulation in
      SetShmSizeCalcMode shm_mode global_config
  | None => global_config
  end.

Definition kDefaultTraceFilterConfigPath : string := "./etc/mw_com_trace_filter.json".

Definition CreateTracingConfiguration (com_config : ComConfiguration.t)
  : TracingConfiguration :=
  let tracing_config := default_TracingConfiguration in
  match ComConfiguration.tracing com_config with
  | Some tracing =>
      let tracing_config := SetTracingEnabled (Tracing.enable tracing) tracing_config in
      let tracing_config :=
        SetApplicationInstanceID (Tracing.application_instance_id tracing) tracing_config in
      match Tracing.trace_filter_config_path tracing with
      | Some path => SetTracingTraceFilterConfigPath path tracing_config
      | None => SetTracingTraceFilterConfigPath kDefaultTraceFilterConfigPath tracing_config
      end
  | None => tracing_config
  end.

End Mappers.

(** ** Vocabulary of the statements *)

(** The first element of a list whose key is [k]. *)
Fixpoint first_with `{EqDecision K} {A} (key : A → K) (k : K) (l : list A)
  : option A :=
  match l with
  | [] => None
  | x :: rest => if decide (key x = k) then Some x else first_with key k rest
  end.

(** The zero-sentinel convention: raw 0 is the unset optional, a positive raw
    value is the optional carrying that value. *)
Definition zero_sentinel (raw : Z) (o : option Z) : Prop :=
  (raw = 0 → o = None) ∧ (0 < raw → o = Some raw).

(** [v] is a value of the unsigned type of [bits] bits. *)
Definition representable (bits : Z) (v : Z) : Prop := 0 ≤ v < 2 ^ bits.

Definition is_shm (instance : Instance.t) : bool :=
  match Instance.binding instance with
  | BindingType.SHM => true
  | _ => false
  end.

(** Number of SHM-kind records, and of records of any other kind. *)
Definition shm_count (l : list Instance.t) : nat := length (filter is_shm l).
Definition other_count (l : list Instance.t) : nat :=
  length (filter (λ i, negb (is_shm i)) l).

(** The uid list of one quality level in a permissions table. *)
Definition uid_list (q : QualityType) (permissions : Permissions.t)
  : option (list Z) :=
  match q with
  | kASIL_QM => Permissions.qm permissions
  | kASIL_B => Permissions.b permissions
  end.

(** The uid list that the buffer holds for one quality level: absent when
    the permissions table or the list is. *)
Definition declared_uids (q : QualityType) (permissions : option Permissions.t)
  : option (list Z) :=
  match permissions with
  | Some permissions => uid_list q permissions
  | None => None
  end.

(** The deployment that one entry of the "service instances" section builds,
    when it builds one. *)
Definition built_deployment (valid_instance_specifier : string → bool)
    (service_instance : ServiceInstance.t) : option ServiceInstanceDeployment :=
  match CreateServiceInstance valid_instance_specifier service_instance with
  | Returned entry => Some entry.2
  | _ => None
  end.

(** ** Example buffers

    The end-to-end scenario of the specification: service type "Radar" v1.0
    with one SHM binding declaring event "Detections" (id 3), and a service
    instance "abs/radar" with 4 sample slots and 2 subscribers; and
    variations of it. *)

Definition radar_version : Version.t := Version.mk 1 0.

Definition detections_3 : BindingEvent.t := BindingEvent.mk "Detections" 3.
Definition detections_4 : BindingEvent.t := BindingEvent.mk "Detections" 4.

Definition radar_shm_binding : Binding.t :=
  Binding.mk BindingType.SHM 4660 (Some [detections_3]) None None.

Definition radar_shm_binding_duplicate_event : Binding.t :=
  Binding.mk BindingType.SHM 4660 (Some [detections_3; detections_4]) None None.

Definition some_ip_binding : Binding.t :=
  Binding.mk BindingType.SOME_IP 0 None None None.

Definition radar_type : ServiceType.t :=
  ServiceType.mk "Radar" (Some radar_version) [radar_shm_binding].

Definition lidar_type : ServiceType.t :=
  ServiceType.mk "Lidar" (Some radar_version) [radar_shm_binding].

Definition radar_type_shm_then_some_ip : ServiceType.t :=
  ServiceType.mk "Radar" (Some radar_version) [radar_shm_binding; some_ip_binding].

Definition radar_type_some_ip_then_shm : ServiceType.t :=
  ServiceType.mk "Radar" (Some radar_version) [some_ip_binding; radar_shm_binding].

Definition radar_type_some_ip_only : ServiceType.t :=
  ServiceType.mk "Radar" (Some radar_version) [some_ip_binding].

Definition radar_type_duplicate_event : ServiceType.t :=
  ServiceType.mk "Radar" (Some radar_version) [radar_shm_binding_duplicate_event].

Definition radar_detections : InstanceEvent.t :=
  InstanceEvent.mk "Detections" 4 2 true 0.

Definition radar_state : InstanceField.t :=
  InstanceField.mk "State" 1 0 false 0.

Definition radar_reset : InstanceMethod.t := InstanceMethod.mk "Reset" 5.

Definition radar_shm_instance (asil_level : AsilLevel.t) (instance_id : Z)
  : Instance.t :=
  Instance.mk instance_id asil_level BindingType.SHM
    (Some [Some radar_detections]) (Some [Some radar_state]) (Some [Some radar_reset])
    (Some (Permissions.mk (Some []) None)) None
    PermissionCheckStrategy.STRICT 0 4096 0.

Definition radar_instance_first : ServiceInstance.t :=
  ServiceInstance.mk "abs/radar" "Radar" (Some radar_version)
    (Some [radar_shm_instance AsilLevel.QM 1]).

Definition radar_instance_last : ServiceInstance.t :=
  ServiceInstance.mk "abs/radar" "Radar" (Some radar_version)
    (Some [radar_shm_instance AsilLevel.B 2]).

Definition radar_instance_no_version : ServiceInstance.t :=
  ServiceInstance.mk "abs/radar" "Radar" None
    (Some [radar_shm_instance AsilLevel.B 2]).

(** Format rules that accept the specifier of the scenario and nothing else. *)
Definition accepts_abs_radar (s : string) : bool := String.eqb s "abs/radar".

Definition radar_global : Global.t :=
  Global.mk AsilLevel.B 0 (Some (QueueSize.mk 10 10 20)).

Definition radar_tracing : Tracing.t := Tracing.mk true "radar_app" None.

Definition some_GlobalConfiguration : GlobalConfiguration :=
  mkGlobalConfiguration kASIL_QM None 10 10 20 kOtherMode.

Definition some_TracingConfiguration : TracingConfiguration :=
  mkTracingConfiguration false "" "".

Definition radar_config : ComConfiguration.t :=
  ComConfiguration.mk [radar_type; lidar_type] [radar_instance_first]
    (Some radar_global) (Some radar_tracing).

Definition config_shm_then_some_ip : ComConfiguration.t :=
  ComConfiguration.mk [radar_type_shm_then_some_ip] [] None None.

Definition config_duplicate_event : ComConfiguration.t :=
  ComConfiguration.mk [radar_type_duplicate_event] [] None None.

Definition config_duplicate_specifier : ComConfiguration.t :=
  ComConfiguration.mk [radar_type] [radar_instance_first; radar_instance_last]
    None None.

Definition config_instance_without_version : ComConfiguration.t :=
  ComConfiguration.mk [radar_type] [radar_instance_no_version] None None.

(** ** Buffer acquisition and the entry point

    The loader's calls into the operating system, in the order they happen. *)
Inductive SysCall :=
  | sys_open (path : string)
  | sys_fstat (fd : Z)
  | sys_mmap (length : Z) (fd : Z)
  | sys_munmap (addr : Z) (length : Z)
  | sys_close (fd : Z).

(** One constructor per [LogFatal] line of LoadBuffer. *)
Inductive LoadDiagnostic :=
  | FailedToOpen
  | FailedToStat
  | FileIsEmpty
  | FailedToMmap
  | VerificationFailed
  | FailedToGetComConfiguration.

Module MmapDeleter.
Record t := mk { size : Z }.
End MmapDeleter.

(** [MmapDeleter::operator()]; the null pointer is address 0. *)
Definition MmapDeleter_call (deleter : MmapDeleter.t) (ptr : Z) : list SysCall :=
  if negb (ptr =? 0) && (0 <? MmapDeleter.size deleter)
  then [sys_munmap ptr (MmapDeleter.size deleter)]
  else [].

(** The members of FlatBufferConfigLoader: [mapped_ptr_] is the pointer of
    the [std::unique_ptr] together with its deleter. *)
Record FlatBufferConfigLoader := mkFlatBufferConfigLoader {
  fd_ : Z;
  mapped_ptr_ : Z * MmapDeleter.t;
  com_config_ : option ComConfiguration.t }.

(** Destruction of a [std::unique_ptr<void, MmapDeleter>]: the deleter runs
    on a pointer that is not null. *)
Definition unique_ptr_destroy (p : Z * MmapDeleter.t) : list SysCall :=
  if negb (p.1 =? 0) then MmapDeleter_call p.2 p.1 else [].

(** [~FlatBufferConfigLoader]: the body, then the members. *)
Definition FlatBufferConfigLoader_destroy (loader : FlatBufferConfigLoader)
  : list SysCall :=
  (if negb (fd_ loader =? -1) then [sys_close (fd_ loader)] else [])
  ++ unique_ptr_destroy (mapped_ptr_ loader).

(** Modelled from the spec: Configuration (configuration.h is not part of the
    sources), the "immutable composition of: a mapping from ServiceIdentifier
    to ServiceTypeDeployment, a mapping from InstanceSpecifier to
    ServiceInstanceDeployment, one GlobalConfiguration, one
    TracingConfiguration". *)
Record Configuration := mkConfiguration {
  service_types_ : gmap ServiceIdentifierType ServiceTypeDeployment;
  service_instances_ : gmap InstanceSpecifier ServiceInstanceDeployment;
  global_configuration_ : GlobalConfiguration;
  tracing_configuration_ : TracingConfiguration }.

(** The arguments of the [Configuration] constructor call are evaluated in an
    order the language leaves open; of the four mappers two can terminate, so
    their relative order is what can be observed. *)
Inductive ArgumentOrder := TypesBeforeInstances | InstancesBeforeTypes.

Section Loader.

(** The operating system and the generated FlatBuffers code: [open] gives a
    descriptor or -1, [fstat] the file size unless it fails, [mmap] an
    address unless it gives MAP_FAILED; the verifier and the root accessor
    read the region at an address. *)
Variable os_open : string → Z.
Variable os_fstat : Z → option Z.
Variable os_mmap : Z → Z → option Z.
Variable VerifyComConfigurationBuffer : Z → Z → bool.
Variable GetComConfiguration : Z → option ComConfiguration.t.
Variable valid_instance_specifier : string → bool.
Variable default_GlobalConfiguration : GlobalConfiguration.
Variable default_TracingConfiguration : TracingConfiguration.

(** [LoadBuffer]: the system calls made, and either the diagnostic before
    [std::terminate] or the loader with its members set. *)
Definition LoadBuffer (path : string) (this : FlatBufferConfigLoader)
  : list SysCall * (LoadDiagnostic + FlatBufferConfigLoader) :=
  let fd := os_open path in
  if fd =? -1 then ([sys_open path], inl FailedToOpen)
  else
    match os_fstat fd with
    | None => ([sys_open path; sys_fstat fd], inl FailedToStat)
    | Some st_size =>
        if st_size =? 0 then ([sys_open path; sys_fstat fd], inl FileIsEmpty)
        else
          let mapped_size := to_size_t st_size in
          match os_mmap mapped_size fd with
          | None =>
              ([sys_open path; sys_fstat fd; sys_mmap mapped_size fd],
               inl FailedToMmap)
          | Some ptr =>
              let calls := [sys_open path; sys_fstat fd; sys_mmap mapped_size fd] in
              if negb (VerifyComConfigurationBuffer ptr mapped_size)
              then (calls, inl VerificationFailed)
              else
                match GetComConfiguration ptr with
                | None => (calls, inl FailedToGetComConfiguration)
                | Some com_config =>
                    (calls,
                     inr (mkFlatBufferConfigLoader fd
                            (ptr, MmapDeleter.mk mapped_size) (Some com_config)))
                end
          end
    end.

(** The constructor: [fd_(-1), com_config_(nullptr)], a default-constructed
    [mapped_ptr_], then LoadBuffer. *)
Definition FlatBufferConfigLoader_new (path : string)
  : list SysCall * (LoadDiagnostic + FlatBufferConfigLoader) :=
  LoadBuffer path (mkFlatBufferConfigLoader (-1) (0, MmapDeleter.mk 0) None).

(** The four mapper calls of CreateConfiguration on a loader. *)
Definition map_sections (order : ArgumentOrder) (loader : FlatBufferConfigLoader)
  : Outcome Configuration :=
  match com_config_ loader with
  | None => NullDereference
  | Some com_config =>
      let global := CreateGlobalConfiguration default_GlobalConfiguration com_config in
      let tracing := CreateTracingConfiguration default_TracingConfiguration com_config in
      match order with
      | TypesBeforeInstances =>
          types ←! CreateServiceTypes com_config;
          instances ←! CreateServiceInstances valid_instance_specifier com_config;
          Returned (mkConfiguration types instances global tracing)
      | InstancesBeforeTypes =>
          instances ←! CreateServiceInstances valid_instance_specifier com_config;
          types ←! CreateServiceTypes com_config;
          Returned (mkConfiguration types instances global tracing)
      end
  end.

(** [CreateConfiguration]: the loader is destroyed when the function returns;
    [std::terminate] runs no destructor. *)
Definition CreateConfiguration (order : ArgumentOrder) (path : string)
  : list SysCall * (LoadDiagnostic + Outcome Configuration) :=
  match FlatBufferConfigLoader_new path with
  | (calls, inl d) => (calls, inl d)
  | (calls, inr loader) =>
      match map_sections order loader with
      | Returned configuration =>
          (calls ++ FlatBufferConfigLoader_destroy loader, inr (Returned configuration))
      | aborted => (calls, inr aborted)
      end
  end.

End Loader.

(** The entries of a vector that are not null. *)
Definition non_null {A} (l : list (option A)) : list A := omap id l.

(** An operating system with one readable file, and a verifier that accepts
    what is mapped at address 4096. *)
Definition one_file_open (path : string) : Z :=
  if String.eqb path "/etc/mw_com_config.bin" then 3 else -1.

Definition one_file_fstat (fd : Z) : option Z :=
  if fd =? 3 then Some 512 else None.

Definition one_file_mmap (length fd : Z) : option Z :=
  if fd =? 3 then Some 4096 else None.

Definition accepts_at_4096 (data length : Z) : bool := data =? 4096.

Definition radar_root (data : Z) : option ComConfiguration.t :=
  if data =? 4096 then Some radar_config else None.

(** An instance whose vectors hold a null entry and a repeated name. *)
Definition radar_detections_late : InstanceEvent.t :=
  InstanceEvent.mk "Detections" 8 1 false 0.

Definition radar_state_late : InstanceField.t :=
  InstanceField.mk "State" 2 2 true 1.

Definition radar_reset_late : InstanceMethod.t := InstanceMethod.mk "Reset" 0.

Definition sparse_instance : Instance.t :=
  Instance.mk 1 AsilLevel.QM BindingType.SHM
    (Some [None; Some radar_detections; Some radar_detections_late])
    (Some [None; Some radar_state; Some radar_state_late])
    (Some [None; Some radar_reset; Some radar_reset_late])
    None None PermissionCheckStrategy.RELAXED 0 0 0.

Definition radar_permissions : Permissions.t :=
  Permissions.mk (Some [1000; 1001]) None.

Definition sized_deployment : LolaServiceInstanceDeployment.t :=
  LolaServiceInstanceDeployment.mk None ∅ ∅ ∅ false ∅ ∅ (Some 7) None None.

Definition wide_id_binding : Binding.t :=
  Binding.mk BindingType.SHM 1 (Some [BindingEvent.mk "Wide" 259]) None None.

Definition radar_type_no_binding : ServiceType.t :=
  ServiceType.mk "Radar" (Some radar_version) [].

Definition radar_instance_two_shm : ServiceInstance.t :=
  ServiceInstance.mk "abs/radar" "Radar" (Some radar_version)
    (Some [radar_shm_instance AsilLevel.QM 1; radar_shm_instance AsilLevel.B 2]).

Definition radar_instance_bad_specifier : ServiceInstance.t :=
  ServiceInstance.mk "abs//radar" "Radar" None None.

Definition config_some_ip_second : ComConfiguration.t :=
  ComConfiguration.mk [radar_type; radar_type_some_ip_only; lidar_type] [] None None.


Definition config_bad_specifier : ComConfiguration.t :=
  ComConfiguration.mk [] [radar_instance_bad_specifier] None None.

Definition config_path : string := "/etc/mw_com_config.bin".

(** What the entries of the example buffers build. *)
Definition radar_type_entries : list (ServiceIdentifierType * ServiceTypeDeployment) :=
  [(make_ServiceIdentifierType "Radar" 1 0,
    mkServiceTypeDeployment (LolaType (CreateLolaServiceTypeDeployment radar_shm_binding)));
   (make_ServiceIdentifierType "Lidar" 1 0,
    mkServiceTypeDeployment (LolaType (CreateLolaServiceTypeDeployment radar_shm_binding)))].

Definition radar_instance_entry (asil_level : AsilLevel.t) (instance_id : Z)
  : InstanceSpecifier * ServiceInstanceDeployment :=
  ("abs/radar",
   mkServiceInstanceDeployment (make_ServiceIdentifierType "Radar" 1 0)
     (CreateLolaServiceInstanceDeployment (radar_shm_instance asil_level instance_id))
     (ConvertAsilLevel asil_level) "abs/radar").

(** An instance whose event asks for 256 subscribers, and entries whose only
    record is of SOME/IP kind. *)
Definition radar_detections_256 : InstanceEvent.t :=
  InstanceEvent.mk "Detections" 4 256 true 0.

Definition overfull_instance : Instance.t :=
  Instance.mk 1 AsilLevel.QM BindingType.SHM
    (Some [Some radar_detections_256]) None None
    None None PermissionCheckStrategy.RELAXED 0 0 0.

Definition some_ip_instance : Instance.t :=
  Instance.mk 1 AsilLevel.QM BindingType.SOME_IP None None None
    None None PermissionCheckStrategy.RELAXED 0 0 0.

Definition radar_instance_some_ip_only : ServiceInstance.t :=
  ServiceInstance.mk "abs/radar" "Radar" (Some radar_version) (Some [some_ip_instance]).

Definition config_instance_some_ip_only : ComConfiguration.t :=
  ComConfiguration.mk [] [radar_instance_some_ip_only] None None.

Definition some_ip_type_root (data : Z) : option ComConfiguration.t :=
  if data =? 4096 then Some config_some_ip_second else None.

(** * Properties *)

(** ** [emplace] keeps the first value stored under a key *)

Section emplace_facts.
Context `{Countable K} {V : Type}.
Implicit Types (m : gmap K V) (k : K) (v : V).

Lemma emplace_fresh k v m :
  m !! k = None → emplace k v m = (<[k := v]> m, true).
Proof. intros Hk. unfold emplace. by rewrite Hk. Qed.

Lemma emplace_present k v m :
  is_Some (m !! k) → emplace k v m = (m, false).
Proof. intros [w Hw]. unfold emplace. by rewrite Hw. Qed.

Lemma emplace_inserted k v m : (emplace k v m).2 = bool_decide (m !! k = None).
Proof.
  unfold emplace. by destruct (m !! k).
Qed.

Lemma lookup_emplace k v m k' :
  (emplace k v m).1 !! k' =
  match m !! k' with
  | Some w => Some w
  | None => if decide (k = k') then Some v else None
  end.
Proof.
  unfold emplace. destruct (m !! k) eqn:E; simpl.
  - destruct (m !! k') eqn:E'; [done|].
    case_decide; [congruence | done].
  - rewrite lookup_insert. case_decide as Hk.
    + subst k'. by rewrite E.
    + by destruct (m !! k').
Qed.

Lemma emplace_size_fresh k v m :
  m !! k = None → size (emplace k v m).1 = S (size m).
Proof. intros Hk. rewrite emplace_fresh by done. by apply map_size_insert_None. Qed.

(** Storing a list of entries one [emplace] at a time. *)
Lemma lookup_foldl_emplace {A} (key : A → K) (val : A → V) (l : list A) m k :
  foldl (λ acc x, (emplace (key x) (val x) acc).1) m l !! k =
  match m !! k with
  | Some w => Some w
  | None => val <$> first_with key k l
  end.
Proof.
  revert m. induction l as [|x l IH]; intros m; simpl.
  - by destruct (m !! k).
  - rewrite IH, lookup_emplace.
    destruct (m !! k); [done|]. by case_decide.
Qed.

Lemma foldl_emplace_fresh_spec {A} (key : A → K) (val : A → V) (l : list A) m :
  NoDup (key <$> l) → (∀ x, x ∈ l → m !! key x = None) →
  let m' := foldl (λ acc x, (emplace (key x) (val x) acc).1) m l in
  size m' = (size m + length l)%nat ∧ ∀ x, x ∈ l → m' !! key x = Some (val x).
Proof.
  revert m. induction l as [|x l IH]; intros m Hnd Hfresh; simpl.
  - split; [lia|]. intros x Hx. by apply elem_of_nil in Hx.
  - rewrite fmap_cons in Hnd. apply NoDup_cons in Hnd as [Hx Hnd].
    assert (m !! key x = None) as Hkx by (apply Hfresh; left).
    destruct (IH (emplace (key x) (val x) m).1 Hnd) as [Hsize Hlook].
    { intros y Hy. rewrite lookup_emplace, Hfresh by (by right).
      case_decide as Heq; [|done].
      exfalso. apply Hx. rewrite Heq. apply list_elem_of_fmap. eauto. }
    split.
    + rewrite Hsize, emplace_size_fresh by done. lia.
    + intros y Hy. apply elem_of_cons in Hy as [->|Hy]; [|by apply Hlook].
      rewrite lookup_foldl_emplace, lookup_emplace, Hkx.
      by rewrite decide_True.
Qed.

End emplace_facts.

Lemma first_with_Some `{EqDecision K} {A} (key : A → K) k (l : list A) x :
  first_with key k l = Some x → x ∈ l ∧ key x = k.
Proof.
  induction l as [|y l IH]; simpl; [done|].
  case_decide as Hy.
  - intros [= ->]. split; [left | done].
  - intros Hx. destruct (IH Hx). split; [by right | done].
Qed.

Lemma first_with_None `{EqDecision K} {A} (key : A → K) k (l : list A) :
  first_with key k l = None ↔ k ∉ key <$> l.
Proof.
  induction l as [|y l IH].
  - split; [|done]. intros _ Hin. by apply elem_of_nil in Hin.
  - rewrite fmap_cons, not_elem_of_cons. cbn [first_with]. case_decide as Hy.
    + split; [done|]. intros [Hne _]. by destruct Hne.
    + rewrite IH. split; [intros ?; split; [congruence|done] | by intros [_ ?]].
Qed.

(** ** The loop combinator *)

Lemma bind_Returned {A B} (o : Outcome A) (k : A → Outcome B) b :
  bind o k = Returned b → ∃ a, o = Returned a ∧ k a = Returned b.
Proof. destruct o; simpl; [eauto | done | done]. Qed.

Lemma is_fatal_Terminated {A} d : is_fatal (@Terminated A d).
Proof. by exists d. Qed.

Lemma not_fatal_Returned {A} (a : A) : ¬ is_fatal (Returned a).
Proof. by intros [d Hd]. Qed.

Lemma not_fatal_NullDereference {A} : ¬ is_fatal (@NullDereference A).
Proof. by intros [d Hd]. Qed.

(** ** CreateServiceTypes *)

(** The binding loop leaves through its first iteration: by [break] on an SHM
    binding, by [std::terminate] on every other kind. *)
Lemma type_binding_scan (bs : list Binding.t) :
  for_each type_binding_step bs blank =
  match bs with
  | [] => Returned blank
  | b :: _ =>
      match Binding.binding b with
      | BindingType.SHM => Returned (LolaType (CreateLolaServiceTypeDeployment b))
      | BindingType.SOME_IP => Terminated SomeIpBindingNotSupported
      | BindingType.OTHER => Terminated UnknownBindingType
      end
  end.
Proof.
  destruct bs as [|b bs]; [done|]. simpl. unfold type_binding_step.
  by destruct (Binding.binding b).
Qed.

Lemma CreateServiceType_outcome (st : ServiceType.t) :
  CreateServiceType st =
  match ServiceType.version st with
  | None => Terminated ServiceTypeMissingVersion
  | Some v =>
      let id := make_ServiceIdentifierType (ServiceType.service_type_name st)
                  (Version.major v) (Version.minor v) in
      match ServiceType.bindings st with
      | [] => Terminated (NoShmBindingForServiceType id)
      | b :: _ =>
          match Binding.binding b with
          | BindingType.SHM =>
              Returned (id, mkServiceTypeDeployment
                              (LolaType (CreateLolaServiceTypeDeployment b)))
          | BindingType.SOME_IP => Terminated SomeIpBindingNotSupported
          | BindingType.OTHER => Terminated UnknownBindingType
          end
      end
  end.
Proof.
  unfold CreateServiceType. destruct (ServiceType.version st) as [v|]; [|done].
  rewrite type_binding_scan. destruct (ServiceType.bindings st) as [|b bs]; [done|].
  by destruct (Binding.binding b).
Qed.

Lemma CreateServiceType_never_null (st : ServiceType.t) :
  CreateServiceType st ≠ NullDereference.
Proof.
  rewrite CreateServiceType_outcome.
  destruct (ServiceType.version st); [|done]. simpl.
  destruct (ServiceType.bindings st) as [|b bs]; [done|].
  by destruct (Binding.binding b).
Qed.

(** In the type mapper every outcome other than a return is a reported
    termination, so one fatal entry makes the load fatal wherever it stands. *)
Lemma fatal_service_type_terminates_load (sts : list ServiceType.t) (st : ServiceType.t) :
  st ∈ sts → is_fatal (CreateServiceType st) →
  ∀ m, is_fatal (for_each service_type_step sts m).
Proof.
  induction sts as [|st' sts IH]; intros Hin Hfatal m.
  - by apply elem_of_nil in Hin.
  - simpl. unfold service_type_step at 1.
    destruct (CreateServiceType st') as [e|d|] eqn:He; simpl.
    + destruct (emplace e.1 e.2 m).2; [|apply is_fatal_Terminated].
      apply IH; [|done]. apply elem_of_cons in Hin as [->|Hin]; [|done].
      destruct Hfatal as [d Hd]. congruence.
    + apply is_fatal_Terminated.
    + by destruct (CreateServiceType_never_null st').
Qed.

Lemma fatal_first_binding (st : ServiceType.t) b post :
  ServiceType.bindings st = b :: post →
  Binding.binding b ≠ BindingType.SHM →
  is_fatal (CreateServiceType st).
Proof.
  intros Hbs Hb. rewrite CreateServiceType_outcome, Hbs.
  destruct (ServiceType.version st); [|apply is_fatal_Terminated]. simpl.
  destruct (Binding.binding b); [done | apply is_fatal_Terminated ..].
Qed.

(** C2, as the code has it. A SOME/IP-kind or unrecognized binding of a
    service-type entry is fatal for the load when no SHM-kind binding
    precedes it in the list, and a list without any SHM-kind binding is
    fatal; the scan stops at the first SHM-kind binding, so whatever follows
    it is not examined and the entry builds its deployment. *)
Theorem service_type_binding_scan_stops_at_first_shm
    (com_config : ComConfiguration.t) (st : ServiceType.t) :
  st ∈ ComConfiguration.service_types com_config →
  (∀ pre b post,
      ServiceType.bindings st = pre ++ b :: post →
      Forall (λ b', Binding.binding b' ≠ BindingType.SHM) pre →
      Binding.binding b ≠ BindingType.SHM →
      is_fatal (CreateServiceTypes com_config)) ∧
  (Forall (λ b, Binding.binding b ≠ BindingType.SHM) (ServiceType.bindings st) →
      is_fatal (CreateServiceTypes com_config)) ∧
  (∀ v b post,
      ServiceType.version st = Some v →
      ServiceType.bindings st = b :: post →
      Binding.binding b = BindingType.SHM →
      CreateServiceType st =
        Returned (make_ServiceIdentifierType (ServiceType.service_type_name st)
                    (Version.major v) (Version.minor v),
                  mkServiceTypeDeployment
                    (LolaType (CreateLolaServiceTypeDeployment b)))).
Proof.
  intros Hin. split; [|split].
  - intros pre b post Hbs Hpre Hb.
    apply (fatal_service_type_terminates_load _ st Hin).
    destruct pre as [|p pre].
    + by apply (fatal_first_binding st b post).
    + apply (fatal_first_binding st p (pre ++ b :: post)); [done|].
      by apply Forall_cons in Hpre as [? _].
  - intros Hall. apply (fatal_service_type_terminates_load _ st Hin).
    destruct (ServiceType.bindings st) as [|b bs] eqn:Hbs.
    + rewrite CreateServiceType_outcome, Hbs.
      destruct (ServiceType.version st); apply is_fatal_Terminated.
    + apply (fatal_first_binding st b bs); [done|].
      by apply Forall_cons in Hall as [? _].
  - intros v b post Hv Hbs Hb.
    by rewrite CreateServiceType_outcome, Hv, Hbs; simpl; rewrite Hb.
Qed.

(** Keys that the type loop can store: pairwise distinct and not yet in the
    map. *)
Lemma service_type_loop (sts : list ServiceType.t)
    (entries : list (ServiceIdentifierType * ServiceTypeDeployment)) :
  Forall2 (λ st e, CreateServiceType st = Returned e) sts entries →
  ∀ m : gmap ServiceIdentifierType ServiceTypeDeployment,
    (NoDup entries.*1 ∧ (∀ e, e ∈ entries → m !! e.1 = None) →
       for_each service_type_step sts m =
         Returned (foldl (λ acc e, (emplace e.1 e.2 acc).1) m entries)) ∧
    (¬ (NoDup entries.*1 ∧ (∀ e, e ∈ entries → m !! e.1 = None)) →
       for_each service_type_step sts m = Terminated ServiceTypeDeployedTwice).
Proof.
  induction 1 as [|st e sts entries He _ IH]; intros m.
  - split; [done|]. intros Hbad. exfalso. apply Hbad. split; [constructor|].
    intros e He. by apply elem_of_nil in He.
  - simpl. unfold service_type_step at 1 3. rewrite He. simpl.
    rewrite emplace_inserted. destruct (m !! e.1) as [w|] eqn:Hm.
    + rewrite bool_decide_eq_false_2 by done. split; [|done].
      intros [_ Hfresh]. specialize (Hfresh e). rewrite Hm in Hfresh.
      by discriminate Hfresh; left.
    + rewrite bool_decide_eq_true_2 by done.
      destruct (IH (emplace e.1 e.2 m).1) as [IHok IHbad].
      assert (Hiff : NoDup (e :: entries).*1 ∧
                     (∀ e', e' ∈ e :: entries → m !! e'.1 = None) ↔
                     NoDup entries.*1 ∧
                     (∀ e', e' ∈ entries → (emplace e.1 e.2 m).1 !! e'.1 = None)).
      { rewrite fmap_cons, NoDup_cons. split.
        - intros [[Hnotin Hnd] Hfresh]. split; [done|]. intros e' He'.
          rewrite lookup_emplace, Hfresh by (by right).
          case_decide as Heq; [|done]. exfalso. apply Hnotin.
          rewrite Heq. apply list_elem_of_fmap. eauto.
        - intros [Hnd Hfresh]. split; [split; [|done]|].
          + intros Hin. apply list_elem_of_fmap in Hin as (e' & Heq & He').
            specialize (Hfresh e' He'). rewrite lookup_emplace in Hfresh.
            destruct (m !! e'.1); [done|]. by rewrite decide_True in Hfresh.
          + intros e' He'. apply elem_of_cons in He' as [->|He']; [done|].
            specialize (Hfresh e' He'). rewrite lookup_emplace in Hfresh.
            by destruct (m !! e'.1). }
      split.
      * intros Hok. apply IHok. by apply Hiff.
      * intros Hbad. apply IHbad. intros Hok. apply Hbad. by apply Hiff.
Qed.

(** C6. In the Service-Type Mapper an entry whose ServiceIdentifier, the
    exact (name, major, minor) key, is already in the output mapping
    terminates the load with "Service Type was deployed twice"; when the
    identifiers of the entries are pairwise distinct every insertion succeeds
    and the mapping holds one entry per input entry. *)
Theorem service_type_deployed_twice (com_config : ComConfiguration.t)
    (entries : list (ServiceIdentifierType * ServiceTypeDeployment)) :
  Forall2 (λ st e, CreateServiceType st = Returned e)
          (ComConfiguration.service_types com_config) entries →
  (∀ st e (m : gmap ServiceIdentifierType ServiceTypeDeployment),
      CreateServiceType st = Returned e → is_Some (m !! e.1) →
      service_type_step st m = Terminated ServiceTypeDeployedTwice) ∧
  (¬ NoDup entries.*1 →
      CreateServiceTypes com_config = Terminated ServiceTypeDeployedTwice) ∧
  (NoDup entries.*1 →
      ∃ m, CreateServiceTypes com_config = Returned m ∧
           size m = length (ComConfiguration.service_types com_config) ∧
           ∀ e, e ∈ entries → m !! e.1 = Some e.2).
Proof.
  intros Hentries. split; [|split].
  - intros st e m He Hin. unfold service_type_step. rewrite He. simpl.
    by rewrite emplace_present.
  - intros Hdup. unfold CreateServiceTypes.
    apply (service_type_loop _ _ Hentries ∅). by intros [Hnd _].
  - intros Hnd. unfold CreateServiceTypes.
    destruct (service_type_loop _ _ Hentries ∅) as [Hok _].
    rewrite Hok by (split; [done | intros; apply lookup_empty]).
    eexists. split; [done|].
    destruct (foldl_emplace_fresh_spec (V := ServiceTypeDeployment)
                fst snd entries ∅ Hnd) as [Hsize Hlook].
    { intros; apply lookup_empty. }
    split; [|done]. rewrite Hsize, map_size_empty.
    by rewrite (Forall2_length _ _ _ Hentries).
Qed.

Lemma id_mapping_lookup {A} (key : A → string) (id : A → Z) (l : list A)
    (name : string) :
  let m := foldl (λ acc x, (emplace (key x) (to_uint8 (id x)) acc).1) ∅ l in
  m !! name = (λ x, to_uint8 (id x)) <$> first_with key name l ∧
  (is_Some (m !! name) ↔ name ∈ key <$> l).
Proof.
  simpl.
  rewrite (lookup_foldl_emplace key (λ x, to_uint8 (id x)) l ∅ name), lookup_empty.
  split; [done|]. rewrite fmap_is_Some, <- not_eq_None_Some, first_with_None.
  split; [apply dec_stable | by intros ? ?].
Qed.

(** C7, as the code has it. Two entries with the same name in the event
    (field, method) list of an SHM binding are not rejected: the binding is
    accepted, and the built mapping has exactly one entry per distinct input
    name, carrying the id, converted to 8 bits, of the first entry of that
    name. *)
Theorem binding_id_mappings_first_entry_wins (b : Binding.t) :
  Binding.binding b = BindingType.SHM →
  let d := CreateLolaServiceTypeDeployment b in
  (∀ rest, for_each type_binding_step (b :: rest) blank = Returned (LolaType d)) ∧
  (∀ l name, Binding.events b = Some l →
     LolaServiceTypeDeployment.events_ d !! name =
       (λ e, to_uint8 (BindingEvent.event_id e)) <$>
         first_with BindingEvent.event_name name l ∧
     (is_Some (LolaServiceTypeDeployment.events_ d !! name) ↔
        name ∈ BindingEvent.event_name <$> l)) ∧
  (∀ l name, Binding.fields b = Some l →
     LolaServiceTypeDeployment.fields_ d !! name =
       (λ f, to_uint8 (BindingField.field_id f)) <$>
         first_with BindingField.field_name name l ∧
     (is_Some (LolaServiceTypeDeployment.fields_ d !! name) ↔
        name ∈ BindingField.field_name <$> l)) ∧
  (∀ l name, Binding.methods b = Some l →
     LolaServiceTypeDeployment.methods_ d !! name =
       (λ m, to_uint8 (BindingMethod.method_id m)) <$>
         first_with BindingMethod.method_name name l ∧
     (is_Some (LolaServiceTypeDeployment.methods_ d !! name) ↔
        name ∈ BindingMethod.method_name <$> l)).
Proof.
  intros Hshm d. split; [|split; [|split]].
  - intros rest. by rewrite type_binding_scan, Hshm.
  - intros l name Hl. subst d. simpl. unfold EventIdMapping. rewrite Hl.
    apply (id_mapping_lookup BindingEvent.event_name BindingEvent.event_id).
  - intros l name Hl. subst d. simpl. unfold FieldIdMapping. rewrite Hl.
    apply (id_mapping_lookup BindingField.field_name BindingField.field_id).
  - intros l name Hl. subst d. simpl. unfold MethodIdMapping. rewrite Hl.
    apply (id_mapping_lookup BindingMethod.method_name BindingMethod.method_id).
Qed.

(** ** CreateServiceInstances *)

Lemma shm_other_count (l : list Instance.t) :
  (shm_count l + other_count l)%nat = length l.
Proof.
  unfold shm_count, other_count. induction l as [|i l IH]; [done|].
  rewrite !filter_cons. destruct (is_shm i) eqn:Hi; simpl; lia.
Qed.

Lemma shm_count_single (l : list Instance.t) :
  shm_count l = 1%nat ∧ other_count l = 0%nat ↔ ∃ i, l = [i] ∧ is_shm i = true.
Proof.
  split.
  - intros [Hshm Hother]. pose proof (shm_other_count l) as Hlen.
    destruct l as [|i [|j l]]; cbn [length] in Hlen; [lia| |lia].
    exists i. split; [done|]. unfold other_count in Hother.
    rewrite filter_cons in Hother. by destruct (is_shm i).
  - intros (i & -> & Hi). unfold shm_count, other_count.
    by rewrite !filter_cons, Hi.
Qed.

Section InstanceMapper.
Variable valid : string → bool.

(** The loop over the instance-binding records visits every record; it
    returns only for the empty list and for a single SHM record. *)
Lemma instance_binding_scan (id : ServiceIdentifierType) (l : list Instance.t) :
  match l with
  | [] => for_each (instance_binding_step id) l None = Returned None
  | [i] =>
      if is_shm i
      then for_each (instance_binding_step id) l None = Returned (Some i)
      else is_fatal (for_each (instance_binding_step id) l None)
  | _ => is_fatal (for_each (instance_binding_step id) l None)
  end.
Proof.
  destruct l as [|i [|j l]]; [done | |]; simpl;
    unfold instance_binding_step, is_shm.
  - destruct (Instance.binding i); [done | apply is_fatal_Terminated ..].
  - destruct (Instance.binding i); [|apply is_fatal_Terminated ..].
    destruct (Instance.binding j); apply is_fatal_Terminated.
Qed.

Lemma CreateServiceInstance_key (si : ServiceInstance.t) e :
  CreateServiceInstance valid si = Returned e →
  e.1 = ServiceInstance.instance_specifier si ∧
  instance_specifier_ e.2 = ServiceInstance.instance_specifier si.
Proof.
  unfold CreateServiceInstance, InstanceSpecifier_Create.
  destruct (valid _); [|done].
  destruct (ServiceInstance.version si); [|done].
  destruct (ServiceInstance.instances si) as [l|]; [|done].
  destruct (length l =? 0)%nat; [done|].
  destruct (for_each _ l None) as [[i|]| |]; simpl; [|done..].
  by intros [= <-].
Qed.

(** With a valid specifier and a version, an entry builds a deployment
    exactly from a list that is one SHM record. *)
Lemma CreateServiceInstance_outcome (si : ServiceInstance.t) spec v :
  InstanceSpecifier_Create valid (ServiceInstance.instance_specifier si) = Some spec →
  ServiceInstance.version si = Some v →
  match ServiceInstance.instances si with
  | None | Some [] => CreateServiceInstance valid si = Terminated MissingDeploymentInstances
  | Some [i] =>
      if is_shm i
      then CreateServiceInstance valid si =
             Returned (spec,
                       mkServiceInstanceDeployment
                         (make_ServiceIdentifierType
                            (ServiceInstance.service_type_name si)
                            (Version.major v) (Version.minor v))
                         (CreateLolaServiceInstanceDeployment i)
                         (ConvertAsilLevel (Instance.asil_level i)) spec)
      else is_fatal (CreateServiceInstance valid si)
  | Some _ => is_fatal (CreateServiceInstance valid si)
  end.
Proof.
  intros Hspec Hv. unfold CreateServiceInstance. rewrite Hspec, Hv.
  destruct (ServiceInstance.instances si) as [l|]; [|done].
  pose proof (instance_binding_scan
                (make_ServiceIdentifierType (ServiceInstance.service_type_name si)
                   (Version.major v) (Version.minor v)) l) as Hscan.
  destruct l as [|i [|j l]]; [done | |].
  - cbn [length Nat.eqb]. destruct (is_shm i).
    + by rewrite Hscan.
    + destruct Hscan as [d ->]. apply is_fatal_Terminated.
  - cbn [length Nat.eqb]. destruct Hscan as [d ->]. apply is_fatal_Terminated.
Qed.

(** The instance loop stops at the first entry that does not build. *)
Lemma service_instances_stop_at (pre post : list ServiceInstance.t)
    (si : ServiceInstance.t) :
  Forall (λ s, ∃ e, CreateServiceInstance valid s = Returned e) pre →
  is_fatal (CreateServiceInstance valid si) →
  ∀ m, is_fatal (for_each (service_instance_step valid) (pre ++ si :: post) m).
Proof.
  intros Hpre [d Hd]. induction Hpre as [|s pre [e He] _ IH]; intros m; simpl.
  - unfold service_instance_step at 1. rewrite Hd. apply is_fatal_Terminated.
  - unfold service_instance_step at 1. rewrite He. apply IH.
Qed.

(** C5. For an entry of the "service instances" section (with a valid
    specifier and a version, reached by the loop): an absent or empty
    instance-binding list, a list without SHM-kind record, with two or more
    SHM-kind records, or with any record of another kind makes the load
    fatal; the entry builds its deployment exactly when the list holds
    exactly one SHM-kind record and no record of another kind. *)
Theorem service_instance_binding_exclusivity (com_config : ComConfiguration.t)
    (pre post : list ServiceInstance.t) (si : ServiceInstance.t)
    (spec : InstanceSpecifier) (v : Version.t) :
  ComConfiguration.service_instances com_config = pre ++ si :: post →
  Forall (λ s, ∃ e, CreateServiceInstance valid s = Returned e) pre →
  InstanceSpecifier_Create valid (ServiceInstance.instance_specifier si) = Some spec →
  ServiceInstance.version si = Some v →
  (ServiceInstance.instances si = None ∨ ServiceInstance.instances si = Some [] →
     CreateServiceInstance valid si = Terminated MissingDeploymentInstances ∧
     is_fatal (CreateServiceInstances valid com_config)) ∧
  (∀ l, ServiceInstance.instances si = Some l →
     (shm_count l = 0%nat → is_fatal (CreateServiceInstances valid com_config)) ∧
     ((2 ≤ shm_count l)%nat → is_fatal (CreateServiceInstances valid com_config)) ∧
     ((0 < other_count l)%nat → is_fatal (CreateServiceInstances valid com_config))) ∧
  ((∃ e, CreateServiceInstance valid si = Returned e) ↔
     ∃ l, ServiceInstance.instances si = Some l ∧
          shm_count l = 1%nat ∧ other_count l = 0%nat).
Proof.
  intros Hcfg Hpre Hspec Hv.
  pose proof (CreateServiceInstance_outcome si spec v Hspec Hv) as Hout.
  assert (Hload : is_fatal (CreateServiceInstance valid si) →
                  is_fatal (CreateServiceInstances valid com_config)).
  { intros Hfatal. unfold CreateServiceInstances. rewrite Hcfg.
    by apply service_instances_stop_at. }
  assert (Hbad : ∀ l, ServiceInstance.instances si = Some l →
                      ¬ (shm_count l = 1%nat ∧ other_count l = 0%nat) →
                      is_fatal (CreateServiceInstance valid si)).
  { intros l Hl Hnot. rewrite Hl in Hout.
    destruct l as [|i [|j l]]; [rewrite Hout; apply is_fatal_Terminated | | done].
    destruct (is_shm i) eqn:Hi; [|done].
    exfalso. apply Hnot. apply shm_count_single. eauto. }
  split; [|split].
  - intros Hl.
    assert (CreateServiceInstance valid si = Terminated MissingDeploymentInstances)
      as Hmissing by (by destruct Hl as [Hl|Hl]; rewrite Hl in Hout).
    split; [done|]. apply Hload. rewrite Hmissing. apply is_fatal_Terminated.
  - intros l Hl. split; [|split]; intros Hc; apply Hload, (Hbad l Hl); lia.
  - split.
    + intros [e He]. destruct (ServiceInstance.instances si) as [l|] eqn:Hl;
        [|by rewrite He in Hout].
      exists l. split; [done|].
      destruct (decide (shm_count l = 1%nat ∧ other_count l = 0%nat)) as [|Hnot];
        [done|].
      destruct (Hbad l eq_refl Hnot) as [d Hd]. congruence.
    + intros (l & Hl & Hcount). apply shm_count_single in Hcount as (i & -> & Hi).
      rewrite Hl, Hi in Hout. eauto.
Qed.

Lemma service_instance_loop (sis : list ServiceInstance.t) :
  Forall (λ si, ∃ e, CreateServiceInstance valid si = Returned e) sis →
  ∀ m0 : gmap InstanceSpecifier ServiceInstanceDeployment,
  ∃ m, for_each (service_instance_step valid) sis m0 = Returned m ∧
       ∀ spec, m !! spec =
         match m0 !! spec with
         | Some d => Some d
         | None =>
             first_with ServiceInstance.instance_specifier spec sis
               ≫= built_deployment valid
         end.
Proof.
  induction 1 as [|si sis [e He] _ IH]; intros m0.
  - exists m0. split; [done|]. intros spec. by destruct (m0 !! spec).
  - simpl. unfold service_instance_step at 1. rewrite He. simpl.
    destruct (IH (emplace e.1 e.2 m0).1) as (m & Hm & Hlook).
    exists m. split; [done|]. intros spec. rewrite Hlook, lookup_emplace.
    destruct (m0 !! spec); [done|].
    destruct (CreateServiceInstance_key si e He) as [<- _].
    case_decide; [|done]. simpl. unfold built_deployment. by rewrite He.
Qed.

(** C1, as the code has it. When two entries of the "service instances"
    section carry the same instance specifier, the returned mapping holds
    one entry for that specifier, and its ServiceInstanceDeployment is the
    one built from the first such entry: [emplace] stores nothing for a key
    that is present. *)
Theorem duplicate_instance_specifier_keeps_first (com_config : ComConfiguration.t) :
  Forall (λ si, ∃ e, CreateServiceInstance valid si = Returned e)
         (ComConfiguration.service_instances com_config) →
  ∃ m, CreateServiceInstances valid com_config = Returned m ∧
       ∀ spec, m !! spec =
         first_with ServiceInstance.instance_specifier spec
                    (ComConfiguration.service_instances com_config)
           ≫= built_deployment valid.
Proof.
  intros Hall. destruct (service_instance_loop _ Hall ∅) as (m & Hm & Hlook).
  exists m. split; [done|]. intros spec. by rewrite Hlook, lookup_empty.
Qed.


End InstanceMapper.

(** ** Zero-sentinel fields *)

Lemma to_uint8_representable v : representable 8 v → to_uint8 v = v.
Proof. intros Hv. unfold to_uint8, representable in *. by apply Z.mod_small. Qed.

Lemma to_uint16_representable v : representable 16 v → to_uint16 v = v.
Proof. intros Hv. unfold to_uint16, representable in *. by apply Z.mod_small. Qed.

Lemma to_size_t_representable v : representable 64 v → to_size_t v = v.
Proof. intros Hv. unfold to_size_t, representable in *. by apply Z.mod_small. Qed.

(** What the guarded conversions of the source store, for every raw value. *)
Lemma guarded_conversion (conv : Z → Z) (raw : Z) :
  conv raw = raw →
  zero_sentinel raw (if 0 <? raw then Some (conv raw) else None).
Proof.
  intros Hconv. split.
  - intros ->. done.
  - intros Hpos. apply Z.ltb_lt in Hpos. by rewrite Hpos, Hconv.
Qed.

(** Outside the range of the type it converts to, a guarded conversion stores
    the wrapped value: [static_cast<uint8_t>] of 256 is 0. *)
Lemma max_subscribers_conversion (event : InstanceEvent.t) :
  0 < InstanceEvent.max_subscribers event →
  LolaEventInstanceDeployment.max_subscribers_ (event_deploy event) =
    Some (InstanceEvent.max_subscribers event mod 256).
Proof. intros Hpos. apply Z.ltb_lt in Hpos. simpl. by rewrite Hpos. Qed.

(** ** ParsePermissions *)

Lemma ParsePermissions_lookup (permissions : option Permissions.t) (q : QualityType) :
  ParsePermissions permissions !! q =
    option_map (map to_uid_t) (declared_uids q permissions).
Proof.
  destruct permissions as [[qm b]|]; [|done].
  unfold ParsePermissions. simpl.
  destruct qm as [qm|], b as [b|], q; simpl;
    rewrite ?lookup_emplace, ?lookup_empty; by try case_decide.
Qed.

Lemma SetMemorySizes_allowed (d : LolaServiceInstanceDeployment.t) (i : Instance.t) :
  LolaServiceInstanceDeployment.allowed_consumer_ (SetMemorySizes d i) =
    LolaServiceInstanceDeployment.allowed_consumer_ d ∧
  LolaServiceInstanceDeployment.allowed_provider_ (SetMemorySizes d i) =
    LolaServiceInstanceDeployment.allowed_provider_ d.
Proof. done. Qed.

(** C10. In the consumer and in the provider permission map of an instance,
    each quality level (QM, ASIL-B) has a key exactly when its uid list is
    present in the buffer: a present but empty list gives an entry with the
    empty uid vector, an absent list (or an absent permissions table) gives
    no entry. *)
Theorem permission_map_key_iff_list_present (instance : Instance.t) (q : QualityType) :
  let d := CreateLolaServiceInstanceDeployment instance in
  (is_Some (LolaServiceInstanceDeployment.allowed_consumer_ d !! q) ↔
     is_Some (declared_uids q (Instance.allowed_consumer instance))) ∧
  (is_Some (LolaServiceInstanceDeployment.allowed_provider_ d !! q) ↔
     is_Some (declared_uids q (Instance.allowed_provider instance))) ∧
  (declared_uids q (Instance.allowed_consumer instance) = Some [] →
     LolaServiceInstanceDeployment.allowed_consumer_ d !! q = Some []) ∧
  (declared_uids q (Instance.allowed_provider instance) = Some [] →
     LolaServiceInstanceDeployment.allowed_provider_ d !! q = Some []) ∧
  (declared_uids q (Instance.allowed_consumer instance) = None →
     LolaServiceInstanceDeployment.allowed_consumer_ d !! q = None) ∧
  (declared_uids q (Instance.allowed_provider instance) = None →
     LolaServiceInstanceDeployment.allowed_provider_ d !! q = None).
Proof.
  intros d.
  assert (Hc : LolaServiceInstanceDeployment.allowed_consumer_ d !! q =
               option_map (map to_uid_t) (declared_uids q (Instance.allowed_consumer instance)))
    by apply ParsePermissions_lookup.
  assert (Hp : LolaServiceInstanceDeployment.allowed_provider_ d !! q =
               option_map (map to_uid_t) (declared_uids q (Instance.allowed_provider instance)))
    by apply ParsePermissions_lookup.
  rewrite Hc, Hp. split_and!.
  - destruct (declared_uids q (Instance.allowed_consumer instance)); simpl;
      split; intros [? ?]; by eauto.
  - destruct (declared_uids q (Instance.allowed_provider instance)); simpl;
      split; intros [? ?]; by eauto.
  - by intros ->.
  - by intros ->.
  - by intros ->.
  - by intros ->.
Qed.

(** ** CreateGlobalConfiguration *)

(** C8. When the "global" section is present, the shared-memory size
    calculation mode of the returned GlobalConfiguration is [kSimulation],
    whatever the section holds and whatever mode a default-constructed
    configuration carries; the application id is set exactly when its raw
    value is not 0, and is otherwise the one of the default-constructed
    configuration. *)
Theorem global_shm_mode_is_simulation
    (default_GlobalConfiguration : GlobalConfiguration)
    (com_config : ComConfiguration.t) (global : Global.t) :
  ComConfiguration.global com_config = Some global →
  let c := CreateGlobalConfiguration default_GlobalConfiguration com_config in
  shm_size_calc_mode_ c = kSimulation ∧
  (Global.application_id global ≠ 0 →
     application_id_ c = Some (Global.application_id global)) ∧
  (Global.application_id global = 0 →
     application_id_ c = application_id_ default_GlobalConfiguration).
Proof.
  intros Hglobal c. subst c. unfold CreateGlobalConfiguration. rewrite Hglobal.
  split_and!.
  - done.
  - intros Hraw. destruct (Z.eqb_spec (Global.application_id global) 0); [done|].
    destruct (Global.queue_size global); by simpl.
  - intros ->. simpl. destruct (Global.queue_size global); by simpl.
Qed.

(** ** CreateTracingConfiguration *)

(** C9. With a "tracing" section whose trace-filter-config path is absent the
    returned TracingConfiguration carries "./etc/mw_com_trace_filter.json";
    with the path present it carries the encoded path; without a "tracing"
    section the mapper returns the default-constructed TracingConfiguration
    unchanged. *)
Theorem tracing_filter_config_path
    (default_TracingConfiguration : TracingConfiguration)
    (com_config : ComConfiguration.t) :
  let c := CreateTracingConfiguration default_TracingConfiguration com_config in
  (∀ tracing, ComConfiguration.tracing com_config = Some tracing →
     Tracing.trace_filter_config_path tracing = None →
     trace_filter_config_path_ c = "./etc/mw_com_trace_filter.json") ∧
  (∀ tracing path, ComConfiguration.tracing com_config = Some tracing →
     Tracing.trace_filter_config_path tracing = Some path →
     trace_filter_config_path_ c = path) ∧
  (ComConfiguration.tracing com_config = None →
     c = default_TracingConfiguration).
Proof.
  intros c. subst c. unfold CreateTracingConfiguration. split_and!.
  - intros tracing -> Hpath. by rewrite Hpath.
  - intros tracing path -> Hpath. by rewrite Hpath.
  - by intros ->.
Qed.

(** * The properties on the example buffers *)

(** C2 as stated fails: a SOME/IP-kind binding that follows an SHM-kind
    binding in the bindings list of a service type does not terminate the
    load. *)
Lemma some_ip_after_shm_is_not_fatal :
  (∃ b, b ∈ ServiceType.bindings radar_type_shm_then_some_ip ∧
        Binding.binding b = BindingType.SOME_IP) ∧
  ¬ is_fatal (CreateServiceTypes config_shm_then_some_ip) ∧
  CreateServiceTypes config_shm_then_some_ip =
    Returned {[ ("Radar", 1, 0) :=
                  mkServiceTypeDeployment
                    (LolaType (LolaServiceTypeDeployment.mk 4660
                                 {[ "Detections" := 3 ]} ∅ ∅)) ]}.
Proof.
  assert (Hret : CreateServiceTypes config_shm_then_some_ip =
    Returned {[ ("Radar", 1, 0) :=
                  mkServiceTypeDeployment
                    (LolaType (LolaServiceTypeDeployment.mk 4660
                                 {[ "Detections" := 3 ]} ∅ ∅)) ]})
    by (vm_compute; reflexivity).
  split_and!; [|rewrite Hret; apply not_fatal_Returned | done].
  exists some_ip_binding. split; [|done]. right. left.
Qed.

Lemma service_type_binding_scan_stops_at_first_shm_witness :
  radar_type_some_ip_then_shm ∈
    ComConfiguration.service_types
      (ComConfiguration.mk [radar_type; radar_type_some_ip_then_shm] [] None None) ∧
  is_fatal (CreateServiceTypes
              (ComConfiguration.mk [radar_type; radar_type_some_ip_then_shm] [] None None)) ∧
  is_fatal (CreateServiceTypes
              (ComConfiguration.mk [radar_type_some_ip_only] [] None None)) ∧
  CreateServiceType radar_type_shm_then_some_ip =
    Returned (make_ServiceIdentifierType "Radar" 1 0,
              mkServiceTypeDeployment
                (LolaType (CreateLolaServiceTypeDeployment radar_shm_binding))).
Proof.
  assert (Hin : radar_type_some_ip_then_shm ∈
                  ComConfiguration.service_types
                    (ComConfiguration.mk [radar_type; radar_type_some_ip_then_shm]
                       [] None None)) by (right; left).
  split; [exact Hin|]. split; [|split].
  - apply (proj1 (service_type_binding_scan_stops_at_first_shm _ _ Hin)
             [] some_ip_binding [radar_shm_binding]); [reflexivity | constructor | done].
  - apply (proj1 (proj2 (service_type_binding_scan_stops_at_first_shm
                           (ComConfiguration.mk [radar_type_some_ip_only] [] None None)
                           radar_type_some_ip_only ltac:(left)))).
    repeat constructor. done.
  - apply (proj2 (proj2 (service_type_binding_scan_stops_at_first_shm
                           config_shm_then_some_ip
                           radar_type_shm_then_some_ip ltac:(left)))
             radar_version radar_shm_binding [some_ip_binding]); reflexivity.
Defined.

Lemma service_type_deployed_twice_witness :
  Forall2 (λ st e, CreateServiceType st = Returned e)
    (ComConfiguration.service_types radar_config)
    [(make_ServiceIdentifierType "Radar" 1 0,
      mkServiceTypeDeployment
        (LolaType (CreateLolaServiceTypeDeployment radar_shm_binding)));
     (make_ServiceIdentifierType "Lidar" 1 0,
      mkServiceTypeDeployment
        (LolaType (CreateLolaServiceTypeDeployment radar_shm_binding)))] ∧
  (∃ m, CreateServiceTypes radar_config = Returned m ∧ size m = 2%nat) ∧
  CreateServiceTypes (ComConfiguration.mk [radar_type; radar_type] [] None None) =
    Terminated ServiceTypeDeployedTwice.
Proof.
  pose (radar_entry :=
          (make_ServiceIdentifierType "Radar" 1 0,
           mkServiceTypeDeployment
             (LolaType (CreateLolaServiceTypeDeployment radar_shm_binding)))).
  pose (lidar_entry :=
          (make_ServiceIdentifierType "Lidar" 1 0,
           mkServiceTypeDeployment
             (LolaType (CreateLolaServiceTypeDeployment radar_shm_binding)))).
  assert (Hentries : Forall2 (λ st e, CreateServiceType st = Returned e)
                       (ComConfiguration.service_types radar_config)
                       [radar_entry; lidar_entry]) by repeat constructor.
  split; [exact Hentries|]. split.
  - destruct (service_type_deployed_twice radar_config [radar_entry; lidar_entry]
                Hentries) as (_ & _ & Hdistinct).
    destruct Hdistinct as (m & Hm & Hsize & _).
    { apply NoDup_cons. split; [|apply NoDup_singleton].
      intros Hin. apply list_elem_of_singleton in Hin. discriminate Hin. }
    exists m. split; [exact Hm | exact Hsize].
  - apply (service_type_deployed_twice
             (ComConfiguration.mk [radar_type; radar_type] [] None None)
             [radar_entry; radar_entry]).
    { repeat constructor. }
    intros Hnd. apply NoDup_cons in Hnd as [Hnotin _]. apply Hnotin. left.
Defined.

(** C7 as stated fails: an SHM binding that declares the event name
    "Detections" twice, with ids 3 and 4, is accepted without a diagnostic,
    and the built mapping carries id 3 only. *)
Lemma duplicate_event_name_is_accepted :
  Binding.events radar_shm_binding_duplicate_event =
    Some [BindingEvent.mk "Detections" 3; BindingEvent.mk "Detections" 4] ∧
  ¬ is_fatal (CreateServiceTypes config_duplicate_event) ∧
  CreateServiceTypes config_duplicate_event =
    Returned {[ ("Radar", 1, 0) :=
                  mkServiceTypeDeployment
                    (LolaType (LolaServiceTypeDeployment.mk 4660
                                 {[ "Detections" := 3 ]} ∅ ∅)) ]}.
Proof.
  assert (Hret : CreateServiceTypes config_duplicate_event =
    Returned {[ ("Radar", 1, 0) :=
                  mkServiceTypeDeployment
                    (LolaType (LolaServiceTypeDeployment.mk 4660
                                 {[ "Detections" := 3 ]} ∅ ∅)) ]})
    by (vm_compute; reflexivity).
  split_and!; [done | rewrite Hret; apply not_fatal_Returned | done].
Qed.

Lemma binding_id_mappings_first_entry_wins_witness :
  Binding.binding radar_shm_binding_duplicate_event = BindingType.SHM ∧
  LolaServiceTypeDeployment.events_
    (CreateLolaServiceTypeDeployment radar_shm_binding_duplicate_event)
    !! "Detections" = Some 3.
Proof.
  split; [reflexivity|].
  destruct (binding_id_mappings_first_entry_wins
              radar_shm_binding_duplicate_event eq_refl) as (_ & Hevents & _).
  destruct (Hevents [detections_3; detections_4] "Detections" eq_refl) as [-> _].
  reflexivity.
Defined.

(** C1 as stated fails: of two entries with the specifier "abs/radar", the
    mapping keeps the deployment built from the first one (quality QM,
    instance id 1), not the one built from the last (ASIL-B, instance id 2). *)
Lemma later_duplicate_specifier_does_not_overwrite :
  ∃ m d_first d_last,
    CreateServiceInstances accepts_abs_radar config_duplicate_specifier = Returned m ∧
    CreateServiceInstance accepts_abs_radar radar_instance_first =
      Returned ("abs/radar", d_first) ∧
    CreateServiceInstance accepts_abs_radar radar_instance_last =
      Returned ("abs/radar", d_last) ∧
    asilLevel_ d_first = kASIL_QM ∧ asilLevel_ d_last = kASIL_B ∧
    m !! "abs/radar" = Some d_first ∧
    m !! "abs/radar" ≠ Some d_last.
Proof.
  eexists _, _, _. split_and!; [vm_compute; reflexivity ..|].
  vm_compute. discriminate.
Qed.

Lemma duplicate_instance_specifier_keeps_first_witness :
  Forall (λ si, ∃ e, CreateServiceInstance accepts_abs_radar si = Returned e)
         (ComConfiguration.service_instances config_duplicate_specifier) ∧
  ∃ m, CreateServiceInstances accepts_abs_radar config_duplicate_specifier = Returned m ∧
       m !! "abs/radar" = built_deployment accepts_abs_radar radar_instance_first.
Proof.
  assert (Hall : Forall (λ si, ∃ e, CreateServiceInstance accepts_abs_radar si = Returned e)
                   (ComConfiguration.service_instances config_duplicate_specifier)).
  { repeat constructor; eexists; reflexivity. }
  split; [exact Hall|].
  destruct (duplicate_instance_specifier_keeps_first accepts_abs_radar
              config_duplicate_specifier Hall) as (m & Hm & Hlook).
  exists m. split; [exact Hm|]. rewrite Hlook. reflexivity.
Defined.

(** C4 at the failing input: for an entry of the "service instances" section
    without version the mapper reports nothing; it reads through the null
    version. *)
Lemma missing_instance_version_is_not_reported :
  ServiceInstance.version radar_instance_no_version = None ∧
  CreateServiceInstances accepts_abs_radar config_instance_without_version =
    NullDereference ∧
  ¬ is_fatal (CreateServiceInstances accepts_abs_radar config_instance_without_version).
Proof.
  split_and!; [done | done |]. apply not_fatal_NullDereference.
Qed.


Lemma service_instance_binding_exclusivity_witness :
  ComConfiguration.service_instances config_duplicate_specifier =
    [radar_instance_first] ++ radar_instance_last :: [] ∧
  Forall (λ s, ∃ e, CreateServiceInstance accepts_abs_radar s = Returned e)
         [radar_instance_first] ∧
  InstanceSpecifier_Create accepts_abs_radar
    (ServiceInstance.instance_specifier radar_instance_last) = Some "abs/radar" ∧
  ServiceInstance.version radar_instance_last = Some radar_version ∧
  ∃ e, CreateServiceInstance accepts_abs_radar radar_instance_last = Returned e.
Proof.
  assert (Hpre : Forall (λ s, ∃ e, CreateServiceInstance accepts_abs_radar s = Returned e)
                   [radar_instance_first]).
  { repeat constructor; eexists; reflexivity. }
  split; [reflexivity|]. split; [exact Hpre|].
  split; [reflexivity|]. split; [reflexivity|].
  apply (service_instance_binding_exclusivity accepts_abs_radar
           config_duplicate_specifier [radar_instance_first] [] radar_instance_last
           "abs/radar" radar_version eq_refl Hpre eq_refl eq_refl).
  exists [radar_shm_instance AsilLevel.B 2]. repeat split.
Defined.

Lemma permission_map_key_iff_list_present_witness :
  LolaServiceInstanceDeployment.allowed_consumer_
    (CreateLolaServiceInstanceDeployment (radar_shm_instance AsilLevel.B 2))
    !! kASIL_QM = Some [] ∧
  LolaServiceInstanceDeployment.allowed_consumer_
    (CreateLolaServiceInstanceDeployment (radar_shm_instance AsilLevel.B 2))
    !! kASIL_B = None.
Proof.
  split.
  - apply (permission_map_key_iff_list_present
             (radar_shm_instance AsilLevel.B 2) kASIL_QM). reflexivity.
  - apply (permission_map_key_iff_list_present
             (radar_shm_instance AsilLevel.B 2) kASIL_B). reflexivity.
Defined.

Lemma global_shm_mode_is_simulation_witness :
  ComConfiguration.global radar_config = Some radar_global ∧
  shm_size_calc_mode_ some_GlobalConfiguration = kOtherMode ∧
  shm_size_calc_mode_ (CreateGlobalConfiguration some_GlobalConfiguration radar_config) =
    kSimulation.
Proof.
  split; [reflexivity|]. split; [reflexivity|].
  apply (global_shm_mode_is_simulation some_GlobalConfiguration radar_config
           radar_global eq_refl).
Defined.

Lemma tracing_filter_config_path_witness :
  trace_filter_config_path_
    (CreateTracingConfiguration some_TracingConfiguration radar_config) =
    "./etc/mw_com_trace_filter.json" ∧
  CreateTracingConfiguration some_TracingConfiguration config_duplicate_event =
    some_TracingConfiguration.
Proof.
  split.
  - apply (proj1 (tracing_filter_config_path some_TracingConfiguration radar_config)
             radar_tracing); reflexivity.
  - apply (proj2 (proj2 (tracing_filter_config_path some_TracingConfiguration
                           config_duplicate_event))). reflexivity.
Defined.

(** * Further properties of the mappers *)

(** ** The instance-level parameter maps *)

Lemma lookup_foldl_emplace_non_null `{Countable K} {V A : Type}
    (key : A → K) (val : A → V) (l : list (option A)) (m : gmap K V) (k : K) :
  foldl (λ acc x,
           match x with
           | Some x => (emplace (key x) (val x) acc).1
           | None => acc
           end) m l !! k =
  match m !! k with
  | Some w => Some w
  | None => val <$> first_with key k (non_null l)
  end.
Proof.
  revert m. induction l as [|[x|] l IH]; intros m; simpl.
  - by destruct (m !! k).
  - rewrite IH, lookup_emplace. unfold non_null. simpl.
    destruct (m !! k); [done|]. by case_decide.
  - apply IH.
Qed.

Lemma first_with_is_Some `{EqDecision K} {A} (key : A → K) k (l : list A) :
  is_Some (first_with key k l) ↔ k ∈ key <$> l.
Proof.
  rewrite <- not_eq_None_Some, first_with_None.
  split; [apply dec_stable | by intros ? ?].
Qed.

(** X1. ParseEventDeployments: under each name the map holds the deployment
    of the first event entry of that name that is not null; null entries are
    skipped, a later entry of the same name is ignored, and an absent vector
    gives the empty map. *)
Theorem ParseEventDeployments_lookup (instance : Instance.t) (name : string) :
  (∀ l, Instance.events instance = Some l →
     ParseEventDeployments instance !! name =
       event_deploy <$> first_with InstanceEvent.event_name name (non_null l) ∧
     (is_Some (ParseEventDeployments instance !! name) ↔
        name ∈ InstanceEvent.event_name <$> non_null l)) ∧
  (Instance.events instance = None → ParseEventDeployments instance = ∅).
Proof.
  unfold ParseEventDeployments. split.
  - intros l ->.
    rewrite (lookup_foldl_emplace_non_null InstanceEvent.event_name event_deploy),
      lookup_empty.
    split; [done|]. by rewrite fmap_is_Some, first_with_is_Some.
  - by intros ->.
Qed.

(** X2. ParseFieldDeployments: under each name the map holds the deployment
    of the first field entry of that name that is not null; null entries are
    skipped, a later entry of the same name is ignored, and an absent vector
    gives the empty map. *)
Theorem ParseFieldDeployments_lookup (instance : Instance.t) (name : string) :
  (∀ l, Instance.fields instance = Some l →
     ParseFieldDeployments instance !! name =
       field_deploy <$> first_with InstanceField.field_name name (non_null l) ∧
     (is_Some (ParseFieldDeployments instance !! name) ↔
        name ∈ InstanceField.field_name <$> non_null l)) ∧
  (Instance.fields instance = None → ParseFieldDeployments instance = ∅).
Proof.
  unfold ParseFieldDeployments. split.
  - intros l ->.
    rewrite (lookup_foldl_emplace_non_null InstanceField.field_name field_deploy),
      lookup_empty.
    split; [done|]. by rewrite fmap_is_Some, first_with_is_Some.
  - by intros ->.
Qed.

(** X3. ParseMethodDeployments: under each name the map holds the deployment
    of the first method entry of that name that is not null; null entries
    are skipped, a later entry of the same name is ignored, and an absent
    vector gives the empty map. *)
Theorem ParseMethodDeployments_lookup (instance : Instance.t) (name : string) :
  (∀ l, Instance.methods instance = Some l →
     ParseMethodDeployments instance !! name =
       method_deploy <$> first_with InstanceMethod.method_name name (non_null l) ∧
     (is_Some (ParseMethodDeployments instance !! name) ↔
        name ∈ InstanceMethod.method_name <$> non_null l)) ∧
  (Instance.methods instance = None → ParseMethodDeployments instance = ∅).
Proof.
  unfold ParseMethodDeployments. split.
  - intros l ->.
    rewrite (lookup_foldl_emplace_non_null InstanceMethod.method_name method_deploy),
      lookup_empty.
    split; [done|]. by rewrite fmap_is_Some, first_with_is_Some.
  - by intros ->.
Qed.

(** X4. ParsePermissions: the uid vector of a quality level holds the uids of
    the buffer's list in their order, each converted to [uid_t]; a uid that
    is a [uid_t] value is stored unchanged; and the map has one entry per
    list that is present, at most two. *)
Theorem ParsePermissions_values (permissions : Permissions.t) :
  (∀ q l, uid_list q permissions = Some l →
     ParsePermissions (Some permissions) !! q = Some (to_uid_t <$> l) ∧
     (Forall (representable 32) l →
        ParsePermissions (Some permissions) !! q = Some l)) ∧
  size (ParsePermissions (Some permissions)) =
    (match Permissions.qm permissions with Some _ => 1 | None => 0 end +
     match Permissions.b permissions with Some _ => 1 | None => 0 end)%nat.
Proof.
  split.
  - intros q l Hl. rewrite ParsePermissions_lookup. simpl. rewrite Hl. simpl.
    split; [reflexivity|]. intros Hall. f_equal. clear Hl.
    induction Hall as [|u l Hu _ IH]; [done|]. simpl. f_equal; [|done].
    unfold to_uid_t, representable in *. by apply Z.mod_small.
  - destruct permissions as [[qm|] [b|]]; unfold ParsePermissions; simpl.
    + rewrite (emplace_fresh kASIL_QM) by apply lookup_empty. simpl.
      rewrite (emplace_fresh kASIL_B) by done. simpl.
      rewrite map_size_insert_None by done.
      by rewrite map_size_insert_None, map_size_empty by apply lookup_empty.
    + rewrite (emplace_fresh kASIL_QM) by apply lookup_empty. simpl.
      by rewrite map_size_insert_None, map_size_empty by apply lookup_empty.
    + rewrite (emplace_fresh kASIL_B) by apply lookup_empty. simpl.
      by rewrite map_size_insert_None, map_size_empty by apply lookup_empty.
    + apply map_size_empty.
Qed.

(** X5. SetMemorySizes writes nothing but the three size members, and a raw
    size that is not positive leaves the member as it was, set or unset. *)
Theorem SetMemorySizes_frame (d : LolaServiceInstanceDeployment.t) (i : Instance.t) :
  let d' := SetMemorySizes d i in
  (LolaServiceInstanceDeployment.instance_id_ d' =
     LolaServiceInstanceDeployment.instance_id_ d ∧
   LolaServiceInstanceDeployment.events_ d' = LolaServiceInstanceDeployment.events_ d ∧
   LolaServiceInstanceDeployment.fields_ d' = LolaServiceInstanceDeployment.fields_ d ∧
   LolaServiceInstanceDeployment.methods_ d' = LolaServiceInstanceDeployment.methods_ d ∧
   LolaServiceInstanceDeployment.strict_permissions_ d' =
     LolaServiceInstanceDeployment.strict_permissions_ d ∧
   LolaServiceInstanceDeployment.allowed_consumer_ d' =
     LolaServiceInstanceDeployment.allowed_consumer_ d ∧
   LolaServiceInstanceDeployment.allowed_provider_ d' =
     LolaServiceInstanceDeployment.allowed_provider_ d) ∧
  (Instance.shm_size i ≤ 0 →
     LolaServiceInstanceDeployment.shared_memory_size_ d' =
       LolaServiceInstanceDeployment.shared_memory_size_ d) ∧
  (Instance.control_asil_b_shm_size i ≤ 0 →
     LolaServiceInstanceDeployment.control_asil_b_memory_size_ d' =
       LolaServiceInstanceDeployment.control_asil_b_memory_size_ d) ∧
  (Instance.control_qm_shm_size i ≤ 0 →
     LolaServiceInstanceDeployment.control_qm_memory_size_ d' =
       LolaServiceInstanceDeployment.control_qm_memory_size_ d).
Proof.
  simpl. split_and!; try done; intros Hraw;
    by rewrite (proj2 (Z.ltb_ge _ _) Hraw).
Qed.

(** ** The type-level id mappings on well-formed input *)

Lemma id_mapping_distinct {A} (key : A → string) (id : A → Z) (l : list A) :
  NoDup (key <$> l) →
  let m := foldl (λ acc x, (emplace (key x) (to_uint8 (id x)) acc).1) ∅ l in
  size m = length l ∧
  ∀ x, x ∈ l →
    m !! key x = Some (to_uint8 (id x)) ∧
    (representable 8 (id x) → m !! key x = Some (id x)).
Proof.
  intros Hnd.
  destruct (foldl_emplace_fresh_spec (V := Z) key (λ x, to_uint8 (id x)) l ∅ Hnd)
    as [Hsize Hlook]; [intros; apply lookup_empty|].
  simpl in *. split; [by rewrite Hsize, map_size_empty|].
  intros x Hx. split; [by apply Hlook|].
  intros Hrep. by rewrite Hlook, to_uint8_representable.
Qed.

(** X6. When the names of the event (field, method) list of a binding are
    pairwise distinct, the built mapping has one entry per list entry, and
    every entry whose id is an 8-bit value is stored under its name with
    exactly that id. *)
Theorem binding_id_mappings_distinct_names (b : Binding.t) :
  (∀ l, Binding.events b = Some l → NoDup (BindingEvent.event_name <$> l) →
     size (EventIdMapping b) = length l ∧
     ∀ e, e ∈ l → representable 8 (BindingEvent.event_id e) →
       EventIdMapping b !! BindingEvent.event_name e = Some (BindingEvent.event_id e)) ∧
  (∀ l, Binding.fields b = Some l → NoDup (BindingField.field_name <$> l) →
     size (FieldIdMapping b) = length l ∧
     ∀ f, f ∈ l → representable 8 (BindingField.field_id f) →
       FieldIdMapping b !! BindingField.field_name f = Some (BindingField.field_id f)) ∧
  (∀ l, Binding.methods b = Some l → NoDup (BindingMethod.method_name <$> l) →
     size (MethodIdMapping b) = length l ∧
     ∀ m, m ∈ l → representable 8 (BindingMethod.method_id m) →
       MethodIdMapping b !! BindingMethod.method_name m = Some (BindingMethod.method_id m)).
Proof.
  split_and!; intros l Hl Hnd.
  - unfold EventIdMapping. rewrite Hl.
    destruct (id_mapping_distinct BindingEvent.event_name BindingEvent.event_id l Hnd)
      as [Hsize Hlook].
    split; [done|]. intros e He. by apply Hlook.
  - unfold FieldIdMapping. rewrite Hl.
    destruct (id_mapping_distinct BindingField.field_name BindingField.field_id l Hnd)
      as [Hsize Hlook].
    split; [done|]. intros e He. by apply Hlook.
  - unfold MethodIdMapping. rewrite Hl.
    destruct (id_mapping_distinct BindingMethod.method_name BindingMethod.method_id l Hnd)
      as [Hsize Hlook].
    split; [done|]. intros e He. by apply Hlook.
Qed.

Lemma to_uint8_range v : representable 8 (to_uint8 v).
Proof. unfold representable, to_uint8. apply Z.mod_pos_bound. lia. Qed.

(** X7. Whatever the buffer holds, every id of the three mappings of a
    type-level SHM deployment is an 8-bit value, and the mappings are empty
    for absent lists. *)
Theorem binding_ids_are_8_bit (b : Binding.t) (name : string) (id : Z) :
  (EventIdMapping b !! name = Some id → representable 8 id) ∧
  (FieldIdMapping b !! name = Some id → representable 8 id) ∧
  (MethodIdMapping b !! name = Some id → representable 8 id) ∧
  (Binding.events b = None → EventIdMapping b = ∅) ∧
  (Binding.fields b = None → FieldIdMapping b = ∅) ∧
  (Binding.methods b = None → MethodIdMapping b = ∅).
Proof.
  split_and!.
  - unfold EventIdMapping. destruct (Binding.events b) as [l|]; [|done].
    rewrite (proj1 (id_mapping_lookup BindingEvent.event_name BindingEvent.event_id l name)).
    destruct (first_with _ _ _); [|done]. intros [= <-]. apply to_uint8_range.
  - unfold FieldIdMapping. destruct (Binding.fields b) as [l|]; [|done].
    rewrite (proj1 (id_mapping_lookup BindingField.field_name BindingField.field_id l name)).
    destruct (first_with _ _ _); [|done]. intros [= <-]. apply to_uint8_range.
  - unfold MethodIdMapping. destruct (Binding.methods b) as [l|]; [|done].
    rewrite (proj1 (id_mapping_lookup BindingMethod.method_name BindingMethod.method_id l name)).
    destruct (first_with _ _ _); [|done]. intros [= <-]. apply to_uint8_range.
  - unfold EventIdMapping. by intros ->.
  - unfold FieldIdMapping. by intros ->.
  - unfold MethodIdMapping. by intros ->.
Qed.

(** ** What a built service-instance deployment tells about its entry *)

(** X8. An entry of the "service instances" section builds a deployment only
    from a valid specifier, a version and exactly one record, of SHM kind;
    the deployment then carries the identifier (service type name, major,
    minor), the LoLa deployment of that record, the specifier as key and as
    member, and quality ASIL-B exactly when the record's level is B. *)
Theorem built_deployment_content (valid : string → bool)
    (si : ServiceInstance.t) (e : InstanceSpecifier * ServiceInstanceDeployment) :
  CreateServiceInstance valid si = Returned e →
  ∃ v i,
    valid (ServiceInstance.instance_specifier si) = true ∧
    ServiceInstance.version si = Some v ∧
    ServiceInstance.instances si = Some [i] ∧
    Instance.binding i = BindingType.SHM ∧
    e = (ServiceInstance.instance_specifier si,
         mkServiceInstanceDeployment
           (make_ServiceIdentifierType (ServiceInstance.service_type_name si)
              (Version.major v) (Version.minor v))
           (CreateLolaServiceInstanceDeployment i)
           (ConvertAsilLevel (Instance.asil_level i))
           (ServiceInstance.instance_specifier si)) ∧
    (asilLevel_ e.2 = kASIL_B ↔ Instance.asil_level i = AsilLevel.B).
Proof.
  intros He.
  destruct (valid (ServiceInstance.instance_specifier si)) eqn:Hvalid;
    [|by unfold CreateServiceInstance, InstanceSpecifier_Create in He; rewrite Hvalid in He].
  destruct (ServiceInstance.version si) as [v|] eqn:Hv;
    [|by unfold CreateServiceInstance, InstanceSpecifier_Create in He;
         rewrite Hvalid, Hv in He].
  assert (Hspec : InstanceSpecifier_Create valid (ServiceInstance.instance_specifier si)
                  = Some (ServiceInstance.instance_specifier si))
    by (unfold InstanceSpecifier_Create; by rewrite Hvalid).
  pose proof (CreateServiceInstance_outcome valid si _ v Hspec Hv) as Hout.
  rewrite He in Hout.
  destruct (ServiceInstance.instances si) as [[|i [|j l]]|];
    [done | | by destruct Hout | done].
  destruct (is_shm i) eqn:Hi; [|by destruct Hout].
  injection Hout as ->. exists v, i. split_and!; try done.
  - unfold is_shm in Hi. by destruct (Instance.binding i).
  - simpl. by destruct (Instance.asil_level i).
Qed.

(** ** The remaining members of the global configuration *)

Lemma to_int32_range v : - 2 ^ 31 ≤ to_int32 v < 2 ^ 31.
Proof.
  unfold to_int32. pose proof (Z.mod_pos_bound (v + 2 ^ 31) (2 ^ 32)). lia.
Qed.

Lemma to_int32_small v : - 2 ^ 31 ≤ v < 2 ^ 31 → to_int32 v = v.
Proof. intros Hv. unfold to_int32. rewrite Z.mod_small; lia. Qed.

Lemma to_int32_wrap v : 2 ^ 31 ≤ v < 2 ^ 32 → to_int32 v = v - 2 ^ 32.
Proof.
  intros Hv. unfold to_int32.
  replace (v + 2 ^ 31) with ((v - 2 ^ 31) + 1 * 2 ^ 32) by lia.
  rewrite Z.mod_add by lia. rewrite Z.mod_small; lia.
Qed.

(** X9. With the "global" section present: the process quality is ASIL-B
    exactly when the raw level is B; with a queue-size sub-object the two
    receiver sizes and the sender size are the 32-bit signed conversions of
    qm_receiver, b_receiver and b_sender, equal to the raw value when it is
    an [int32_t] value and lower by 2^32 when it lies in [2^31, 2^32);
    without the sub-object the three sizes stay those of the
    default-constructed configuration. *)
Theorem global_queue_sizes (default_GlobalConfiguration : GlobalConfiguration)
    (com_config : ComConfiguration.t) (global : Global.t) :
  ComConfiguration.global com_config = Some global →
  let c := CreateGlobalConfiguration default_GlobalConfiguration com_config in
  (process_asil_level_ c = kASIL_B ↔ Global.asil_level global = AsilLevel.B) ∧
  (∀ q, Global.queue_size global = Some q →
     receiver_qm_message_queue_size_ c = to_int32 (QueueSize.qm_receiver q) ∧
     receiver_b_message_queue_size_ c = to_int32 (QueueSize.b_receiver q) ∧
     sender_message_queue_size_ c = to_int32 (QueueSize.b_sender q) ∧
     (- 2 ^ 31 ≤ QueueSize.qm_receiver q < 2 ^ 31 →
        receiver_qm_message_queue_size_ c = QueueSize.qm_receiver q) ∧
     (- 2 ^ 31 ≤ QueueSize.b_receiver q < 2 ^ 31 →
        receiver_b_message_queue_size_ c = QueueSize.b_receiver q) ∧
     (- 2 ^ 31 ≤ QueueSize.b_sender q < 2 ^ 31 →
        sender_message_queue_size_ c = QueueSize.b_sender q) ∧
     (2 ^ 31 ≤ QueueSize.qm_receiver q < 2 ^ 32 →
        receiver_qm_message_queue_size_ c = QueueSize.qm_receiver q - 2 ^ 32)) ∧
  (Global.queue_size global = None →
     receiver_qm_message_queue_size_ c =
       receiver_qm_message_queue_size_ default_GlobalConfiguration ∧
     receiver_b_message_queue_size_ c =
       receiver_b_message_queue_size_ default_GlobalConfiguration ∧
     sender_message_queue_size_ c =
       sender_message_queue_size_ default_GlobalConfiguration).
Proof.
  intros Hglobal c. subst c. unfold CreateGlobalConfiguration. rewrite Hglobal.
  split_and!.
  - destruct (negb _), (Global.queue_size global); simpl;
      by destruct (Global.asil_level global).
  - intros q ->. destruct (negb _); simpl.
    all: split_and!; try done; intros Hq;
      by (apply to_int32_small || apply to_int32_wrap).
  - intros ->. by destruct (negb _).
Qed.

(** Without a "global" section the mapper returns the default-constructed
    GlobalConfiguration untouched: in that case also the shared-memory size
    calculation mode is the default-constructed one, not forced to
    [kSimulation]. *)
Lemma global_section_absent (default_GlobalConfiguration : GlobalConfiguration)
    (com_config : ComConfiguration.t) :
  ComConfiguration.global com_config = None →
  CreateGlobalConfiguration default_GlobalConfiguration com_config =
    default_GlobalConfiguration ∧
  shm_size_calc_mode_
    (CreateGlobalConfiguration default_GlobalConfiguration com_config) =
    shm_size_calc_mode_ default_GlobalConfiguration.
Proof. intros Hglobal. unfold CreateGlobalConfiguration. by rewrite Hglobal. Qed.

(** ** The two section loops, entry by entry *)

Lemma for_each_app {A S} (body : A → S → Outcome (LoopStep S)) (l1 l2 : list A) :
  (∀ x s s', body x s ≠ Returned (Break s')) →
  ∀ s s1, for_each body l1 s = Returned s1 →
          for_each body (l1 ++ l2) s = for_each body l2 s1.
Proof.
  intros Hnobreak. induction l1 as [|x l1 IH]; intros s s1; simpl.
  - by intros [= ->].
  - destruct (body x s) as [[s'|s']| |] eqn:Hx; [by apply IH | | done | done].
    by destruct (Hnobreak x s s').
Qed.

Lemma service_type_step_no_break st m m' :
  service_type_step st m ≠ Returned (Break m').
Proof.
  unfold service_type_step. destruct (CreateServiceType st) as [e| |]; simpl; [|done..].
  by destruct (emplace e.1 e.2 m).2.
Qed.


Lemma Forall2_elem_of_l {A B} (P : A → B → Prop) (l : list A) (k : list B) x :
  Forall2 P l k → x ∈ l → ∃ y, y ∈ k ∧ P x y.
Proof.
  induction 1 as [|a b l k Hab _ IH]; intros Hx; [by apply elem_of_nil in Hx|].
  apply elem_of_cons in Hx as [->|Hx].
  - exists b. split; [left | done].
  - destruct (IH Hx) as (y & Hy & Hxy). exists y. split; [by right | done].
Qed.

Lemma Forall2_elem_of_r {A B} (P : A → B → Prop) (l : list A) (k : list B) y :
  Forall2 P l k → y ∈ k → ∃ x, x ∈ l ∧ P x y.
Proof.
  induction 1 as [|a b l k Hab _ IH]; intros Hy; [by apply elem_of_nil in Hy|].
  apply elem_of_cons in Hy as [->|Hy].
  - exists a. split; [left | done].
  - destruct (IH Hy) as (x & Hx & Hxy). exists x. split; [by right | done].
Qed.

(** A returning type loop has stored one fresh key per entry. *)
Lemma service_type_loop_returned (sts : list ServiceType.t) :
  ∀ m0 m : gmap ServiceIdentifierType ServiceTypeDeployment,
  for_each service_type_step sts m0 = Returned m →
  ∃ entries,
    Forall2 (λ st e, CreateServiceType st = Returned e) sts entries ∧
    NoDup entries.*1 ∧ (∀ e, e ∈ entries → m0 !! e.1 = None) ∧
    m = foldl (λ acc e, (emplace e.1 e.2 acc).1) m0 entries.
Proof.
  induction sts as [|st sts IH]; intros m0 m; simpl.
  - intros [= <-]. exists []. split_and!; [constructor | constructor | | done].
    intros e He. by apply elem_of_nil in He.
  - unfold service_type_step at 1.
    destruct (CreateServiceType st) as [e| |] eqn:He; simpl; [|done..].
    rewrite emplace_inserted. destruct (m0 !! e.1) as [w|] eqn:Hm0.
    { by rewrite bool_decide_eq_false_2. }
    rewrite bool_decide_eq_true_2 by done. intros Hrest.
    destruct (IH _ _ Hrest) as (entries & Hall & Hnd & Hfresh & ->).
    exists (e :: entries). split_and!.
    + by constructor.
    + rewrite fmap_cons. apply NoDup_cons. split; [|done].
      intros Hin. apply list_elem_of_fmap in Hin as (e' & Heq & He').
      specialize (Hfresh e' He'). rewrite lookup_emplace in Hfresh.
      destruct (m0 !! e'.1); [done|]. by rewrite decide_True in Hfresh.
    + intros e' He'. apply elem_of_cons in He' as [->|He']; [done|].
      specialize (Hfresh e' He'). rewrite lookup_emplace in Hfresh.
      by destruct (m0 !! e'.1).
    + done.
Qed.

(** X10. A mapping returned by CreateServiceTypes holds exactly what the
    entries of the section build, one entry per input entry: an identifier
    maps to a deployment if and only if some entry builds that pair, and
    every stored deployment is a LoLa deployment, never blank. *)
Theorem service_types_mapping_content (com_config : ComConfiguration.t)
    (m : gmap ServiceIdentifierType ServiceTypeDeployment) :
  CreateServiceTypes com_config = Returned m →
  size m = length (ComConfiguration.service_types com_config) ∧
  (∀ id d, m !! id = Some d ↔
     ∃ st, st ∈ ComConfiguration.service_types com_config ∧
           CreateServiceType st = Returned (id, d)) ∧
  (∀ id d, m !! id = Some d → ∃ lola, binding_info_ d = LolaType lola).
Proof.
  intros Hm. apply service_type_loop_returned in Hm
    as (entries & Hall & Hnd & _ & ->).
  destruct (foldl_emplace_fresh_spec (V := ServiceTypeDeployment)
              fst snd entries ∅ Hnd) as [Hsize Hlook];
    [intros; apply lookup_empty|]. simpl in Hsize, Hlook.
  assert (Hcontent : ∀ id d,
             foldl (λ acc e, (emplace e.1 e.2 acc).1) ∅ entries !! id = Some d ↔
             ∃ st, st ∈ ComConfiguration.service_types com_config ∧
                   CreateServiceType st = Returned (id, d)).
  { intros id d. split.
    - rewrite (lookup_foldl_emplace fst snd entries ∅ id), lookup_empty.
      destruct (first_with fst id entries) as [[id' d']|] eqn:Hfirst; [|done].
      intros [= <-]. apply first_with_Some in Hfirst as [Hin Hid]. simpl in Hid.
      subst id'. destruct (Forall2_elem_of_r _ _ _ _ Hall Hin) as (st & Hst & Hbuilt).
      eauto.
    - intros (st & Hst & Hbuilt).
      destruct (Forall2_elem_of_l _ _ _ _ Hall Hst) as (e & He & Hbuilt').
      rewrite Hbuilt in Hbuilt'. injection Hbuilt' as <-.
      by apply (Hlook (id, d)). }
  split_and!.
  - rewrite Hsize, map_size_empty. by rewrite (Forall2_length _ _ _ Hall).
  - done.
  - intros id d Hd. apply Hcontent in Hd as (st & _ & Hbuilt).
    rewrite CreateServiceType_outcome in Hbuilt.
    destruct (ServiceType.version st); [|done]. simpl in Hbuilt.
    destruct (ServiceType.bindings st) as [|b bs]; [done|].
    destruct (Binding.binding b); [|done..].
    injection Hbuilt as _ <-. eauto.
Qed.

(** X11. CreateServiceTypes fails fast: after entries that build under
    pairwise distinct identifiers, an entry that terminates gives the load
    its own diagnostic, and an entry that builds under an identifier already
    stored gives "Service Type was deployed twice"; the entries behind it are
    not examined. *)
Theorem service_types_first_failure (com_config : ComConfiguration.t)
    (pre post : list ServiceType.t) (st : ServiceType.t)
    (entries : list (ServiceIdentifierType * ServiceTypeDeployment)) :
  ComConfiguration.service_types com_config = pre ++ st :: post →
  Forall2 (λ st e, CreateServiceType st = Returned e) pre entries →
  NoDup entries.*1 →
  (∀ d, CreateServiceType st = Terminated d →
        CreateServiceTypes com_config = Terminated d) ∧
  (∀ e, CreateServiceType st = Returned e → e.1 ∈ entries.*1 →
        CreateServiceTypes com_config = Terminated ServiceTypeDeployedTwice).
Proof.
  intros Hcfg Hall Hnd. unfold CreateServiceTypes. rewrite Hcfg.
  destruct (service_type_loop _ _ Hall ∅) as [Hok _].
  specialize (Hok (conj Hnd (λ e _, lookup_empty (e.1)))).
  rewrite (for_each_app _ pre (st :: post) service_type_step_no_break _ _ Hok).
  split.
  - intros d Hd. simpl. unfold service_type_step at 1. by rewrite Hd.
  - intros e He Hin. simpl. unfold service_type_step at 1. rewrite He. simpl.
    rewrite emplace_present; [done|].
    apply list_elem_of_fmap in Hin as (e' & Heq & He').
    destruct (foldl_emplace_fresh_spec (V := ServiceTypeDeployment)
                fst snd entries ∅ Hnd) as [_ Hlook];
      [intros; apply lookup_empty|].
    rewrite Heq. rewrite (Hlook e' He'). eauto.
Qed.

(** X12. "No SHM binding found for Service Type" is reported exactly for an
    entry that has a version and an empty bindings list: a first binding of
    another kind terminates with its own diagnostic before. *)
Theorem no_shm_binding_for_service_type (st : ServiceType.t)
    (id : ServiceIdentifierType) :
  CreateServiceType st = Terminated (NoShmBindingForServiceType id) ↔
  ∃ v, ServiceType.version st = Some v ∧ ServiceType.bindings st = [] ∧
       id = make_ServiceIdentifierType (ServiceType.service_type_name st)
              (Version.major v) (Version.minor v).
Proof.
  rewrite CreateServiceType_outcome. split.
  - destruct (ServiceType.version st) as [v|]; [|done]. simpl.
    destruct (ServiceType.bindings st) as [|b bs].
    + intros [= <-]. eauto.
    + by destruct (Binding.binding b).
  - intros (v & -> & -> & ->). done.
Qed.

(** The instance-binding loop never reads past the second record. *)
Lemma instance_binding_scan_diagnostic (id : ServiceIdentifierType)
    (l : list Instance.t) :
  for_each (instance_binding_step id) l None =
  match l with
  | [] => Returned None
  | i :: rest =>
      match Instance.binding i with
      | BindingType.SHM =>
          match rest with
          | [] => Returned (Some i)
          | j :: _ =>
              match Instance.binding j with
              | BindingType.SHM => Terminated (MultipleShmBindings id)
              | BindingType.SOME_IP => Terminated SomeIpBindingCannotBeParsed
              | BindingType.OTHER => Terminated UnknownBindingType
              end
          end
      | BindingType.SOME_IP => Terminated SomeIpBindingCannotBeParsed
      | BindingType.OTHER => Terminated UnknownBindingType
      end
  end.
Proof.
  destruct l as [|i [|j l]]; [done | |]; simpl; unfold instance_binding_step.
  - by destruct (Instance.binding i).
  - destruct (Instance.binding i); [|done..]. by destruct (Instance.binding j).
Qed.

Lemma CreateServiceInstance_valid (valid : string → bool) (si : ServiceInstance.t) e :
  CreateServiceInstance valid si = Returned e →
  valid (ServiceInstance.instance_specifier si) = true.
Proof.
  unfold CreateServiceInstance, InstanceSpecifier_Create.
  by destruct (valid (ServiceInstance.instance_specifier si)).
Qed.

Lemma CreateServiceInstance_diagnostics (valid : string → bool)
    (si : ServiceInstance.t) (d : Diagnostic) :
  CreateServiceInstance valid si = Terminated d →
  d = InvalidInstanceSpecifier ∨ d = MissingDeploymentInstances ∨
  (∃ id, d = MultipleShmBindings id) ∨
  d = SomeIpBindingCannotBeParsed ∨ d = UnknownBindingType.
Proof.
  unfold CreateServiceInstance, InstanceSpecifier_Create.
  destruct (valid _); [|intros [= <-]; auto].
  destruct (ServiceInstance.version si) as [v|]; [|done].
  destruct (ServiceInstance.instances si) as [l|]; [|intros [= <-]; auto].
  destruct l as [|i rest]; [intros [= <-]; auto|]. cbn [length Nat.eqb].
  rewrite instance_binding_scan_diagnostic.
  destruct rest as [|j l].
  - destruct (Instance.binding i); simpl; [done | intros [= <-]; auto ..].
  - destruct (Instance.binding i); simpl; [|intros [= <-]; auto ..].
    destruct (Instance.binding j); simpl; intros [= <-]; eauto 6.
Qed.

Lemma size_emplace_le `{Countable K} {V} (k : K) (v : V) (m : gmap K V) :
  (size (emplace k v m).1 ≤ S (size m))%nat.
Proof.
  unfold emplace. destruct (m !! k) eqn:Hk; simpl; [lia|].
  by rewrite map_size_insert_None.
Qed.

Lemma size_foldl_emplace_le `{Countable K} {V} (entries : list (K * V)) (m : gmap K V) :
  (size (foldl (λ acc e, (emplace e.1 e.2 acc).1) m entries)
   ≤ size m + length entries)%nat.
Proof.
  revert m. induction entries as [|e entries IH]; intros m; simpl; [lia|].
  pose proof (IH (emplace e.1 e.2 m).1). pose proof (size_emplace_le e.1 e.2 m). lia.
Qed.

Section InstanceLoop.
Variable valid : string → bool.

Lemma service_instance_loop_entries (sis : list ServiceInstance.t)
    (entries : list (InstanceSpecifier * ServiceInstanceDeployment)) :
  Forall2 (λ si e, CreateServiceInstance valid si = Returned e) sis entries →
  ∀ m0, for_each (service_instance_step valid) sis m0 =
        Returned (foldl (λ acc e, (emplace e.1 e.2 acc).1) m0 entries).
Proof.
  induction 1 as [|si e sis entries He _ IH]; intros m0; [done|].
  simpl. unfold service_instance_step at 1. rewrite He. simpl. apply IH.
Qed.

Lemma service_instance_loop_returned (sis : list ServiceInstance.t) :
  ∀ m0 m, for_each (service_instance_step valid) sis m0 = Returned m →
  ∃ entries, Forall2 (λ si e, CreateServiceInstance valid si = Returned e) sis entries.
Proof.
  induction sis as [|si sis IH]; intros m0 m; simpl.
  - intros _. exists []. constructor.
  - unfold service_instance_step at 1.
    destruct (CreateServiceInstance valid si) as [e| |] eqn:He; simpl; [|done..].
    intros Hrest. destruct (IH _ _ Hrest) as [entries Hall].
    exists (e :: entries). by constructor.
Qed.

Lemma service_instance_loop_terminated (sis : list ServiceInstance.t) d :
  ∀ m0, for_each (service_instance_step valid) sis m0 = Terminated d →
  ∃ si, si ∈ sis ∧ CreateServiceInstance valid si = Terminated d.
Proof.
  induction sis as [|si sis IH]; intros m0; simpl; [done|].
  unfold service_instance_step at 1.
  destruct (CreateServiceInstance valid si) as [e|d'|] eqn:He; simpl.
  - intros Hrest. destruct (IH _ Hrest) as (si' & Hin & Hd).
    exists si'. split; [by right | done].
  - intros [= ->]. exists si. split; [left | done].
  - done.
Qed.

(** X13. CreateServiceInstances returns exactly when every entry of the
    section builds a deployment; a repeated specifier never makes it fail.
    In a returned mapping every key is a specifier the format rules accept
    and is the specifier member of its deployment, every stored pair is
    built by some entry, every entry's specifier is a key, and there are at
    most as many keys as entries. *)
Theorem service_instances_mapping_content (com_config : ComConfiguration.t) :
  ((∃ m, CreateServiceInstances valid com_config = Returned m) ↔
     Forall (λ si, ∃ e, CreateServiceInstance valid si = Returned e)
            (ComConfiguration.service_instances com_config)) ∧
  (∀ m, CreateServiceInstances valid com_config = Returned m →
     (∀ spec d, m !! spec = Some d →
        valid spec = true ∧ instance_specifier_ d = spec ∧
        ∃ si, si ∈ ComConfiguration.service_instances com_config ∧
              CreateServiceInstance valid si = Returned (spec, d)) ∧
     (∀ si, si ∈ ComConfiguration.service_instances com_config →
        is_Some (m !! ServiceInstance.instance_specifier si)) ∧
     (size m ≤ length (ComConfiguration.service_instances com_config))%nat).
Proof.
  unfold CreateServiceInstances. split.
  - split.
    + intros [m Hm]. apply service_instance_loop_returned in Hm as [entries Hall].
      clear -Hall. induction Hall; constructor; eauto.
    + intros Hall. destruct (service_instance_loop valid _ Hall ∅) as (m & Hm & _).
      eauto.
  - intros m Hm.
    destruct (service_instance_loop_returned _ _ _ Hm) as [entries Hall].
    rewrite (service_instance_loop_entries _ _ Hall) in Hm. injection Hm as <-.
    split_and!.
    + intros spec d.
      rewrite (lookup_foldl_emplace fst snd entries ∅ spec), lookup_empty.
      destruct (first_with fst spec entries) as [[spec' d']|] eqn:Hfirst; [|done].
      intros [= <-]. apply first_with_Some in Hfirst as [Hin Hid]. simpl in Hid.
      subst spec'. destruct (Forall2_elem_of_r _ _ _ _ Hall Hin) as (si & Hsi & Hbuilt).
      destruct (CreateServiceInstance_key valid si _ Hbuilt) as [Hkey Hmember].
      simpl in Hkey, Hmember. split_and!.
      * rewrite Hkey. by apply (CreateServiceInstance_valid valid si _ Hbuilt).
      * by rewrite Hmember.
      * eauto.
    + intros si Hsi.
      destruct (Forall2_elem_of_l _ _ _ _ Hall Hsi) as (e & He & Hbuilt).
      destruct (CreateServiceInstance_key valid si _ Hbuilt) as [<- _].
      rewrite (lookup_foldl_emplace fst snd entries ∅ e.1), lookup_empty.
      apply fmap_is_Some, first_with_is_Some, list_elem_of_fmap. eauto.
    + pose proof (size_foldl_emplace_le entries
                    (∅ : gmap InstanceSpecifier ServiceInstanceDeployment)) as Hsize.
      rewrite map_size_empty in Hsize.
      by rewrite (Forall2_length _ _ _ Hall).
Qed.


(** X15. The diagnostics that CreateServiceInstances can report are: invalid
    instance specifier, missing deployment instances, multiple SHM bindings,
    SOME/IP binding, unknown binding type. "No SHM binding found for" is
    never reported: a non-empty list that passes the loop has its SHM
    record. *)
Theorem service_instances_diagnostics (com_config : ComConfiguration.t)
    (d : Diagnostic) :
  CreateServiceInstances valid com_config = Terminated d →
  (d = InvalidInstanceSpecifier ∨ d = MissingDeploymentInstances ∨
   (∃ id, d = MultipleShmBindings id) ∨
   d = SomeIpBindingCannotBeParsed ∨ d = UnknownBindingType) ∧
  (∀ id, d ≠ NoShmBindingFound id).
Proof.
  intros Hd. apply service_instance_loop_terminated in Hd as (si & _ & Hsi).
  apply CreateServiceInstance_diagnostics in Hsi.
  split; [done|]. intros id ->.
  by destruct Hsi as [?|[?|[[? ?]|[?|?]]]].
Qed.

(** X16. Which diagnostic an entry of the "service instances" section gets:
    an invalid specifier is reported before anything else of the entry is
    read, also when the version is absent; with a valid specifier and a
    version, a first record of SOME/IP or unknown kind is reported as such,
    and after a first SHM record the second record decides: multiple SHM
    bindings, SOME/IP, or unknown. *)
Theorem service_instance_diagnostic (si : ServiceInstance.t) :
  (valid (ServiceInstance.instance_specifier si) = false →
     CreateServiceInstance valid si = Terminated InvalidInstanceSpecifier) ∧
  (∀ v i rest,
     valid (ServiceInstance.instance_specifier si) = true →
     ServiceInstance.version si = Some v →
     ServiceInstance.instances si = Some (i :: rest) →
     let id := make_ServiceIdentifierType (ServiceInstance.service_type_name si)
                 (Version.major v) (Version.minor v) in
     (Instance.binding i = BindingType.SOME_IP →
        CreateServiceInstance valid si = Terminated SomeIpBindingCannotBeParsed) ∧
     (Instance.binding i = BindingType.OTHER →
        CreateServiceInstance valid si = Terminated UnknownBindingType) ∧
     (∀ j rest', Instance.binding i = BindingType.SHM → rest = j :: rest' →
        CreateServiceInstance valid si =
          match Instance.binding j with
          | BindingType.SHM => Terminated (MultipleShmBindings id)
          | BindingType.SOME_IP => Terminated SomeIpBindingCannotBeParsed
          | BindingType.OTHER => Terminated UnknownBindingType
          end)).
Proof.
  split.
  - intros Hvalid. unfold CreateServiceInstance, InstanceSpecifier_Create.
    by rewrite Hvalid.
  - intros v i rest Hvalid Hv Hl id.
    assert (Hcreate : CreateServiceInstance valid si =
              (shm_instance ←! for_each (instance_binding_step id) (i :: rest) None;
               match shm_instance with
               | None => Terminated (NoShmBindingFound id)
               | Some shm_instance =>
                   Returned (ServiceInstance.instance_specifier si,
                             mkServiceInstanceDeployment id
                               (CreateLolaServiceInstanceDeployment shm_instance)
                               (ConvertAsilLevel (Instance.asil_level shm_instance))
                               (ServiceInstance.instance_specifier si))
               end)).
    { unfold CreateServiceInstance, InstanceSpecifier_Create.
      by rewrite Hvalid, Hv, Hl. }
    rewrite Hcreate, instance_binding_scan_diagnostic. split_and!.
    + by intros ->.
    + by intros ->.
    + intros j rest' -> ->. by destruct (Instance.binding j).
Qed.

End InstanceLoop.

(** ** Buffer acquisition and CreateConfiguration *)

Section LoaderProperties.
Variable os_open : string → Z.
Variable os_fstat : Z → option Z.
Variable os_mmap : Z → Z → option Z.
Variable VerifyComConfigurationBuffer : Z → Z → bool.
Variable GetComConfiguration : Z → option ComConfiguration.t.
Variable valid : string → bool.
Variable default_GlobalConfiguration : GlobalConfiguration.
Variable default_TracingConfiguration : TracingConfiguration.

Local Abbreviation load :=
  (LoadBuffer os_open os_fstat os_mmap VerifyComConfigurationBuffer
     GetComConfiguration).
Local Abbreviation create :=
  (CreateConfiguration os_open os_fstat os_mmap VerifyComConfigurationBuffer
     GetComConfiguration valid default_GlobalConfiguration
     default_TracingConfiguration).

(** A property of every call of an explicit list of calls. *)
Ltac each_call := apply Forall_forall; repeat constructor.

(** The loader that a successful load hands out. *)
Lemma LoadBuffer_inversion (path : string) (this loader : FlatBufferConfigLoader)
    (calls : list SysCall) :
  load path this = (calls, inr loader) →
  ∃ st_size ptr com_config,
    os_open path ≠ -1 ∧
    os_fstat (os_open path) = Some st_size ∧ st_size ≠ 0 ∧
    os_mmap (to_size_t st_size) (os_open path) = Some ptr ∧
    VerifyComConfigurationBuffer ptr (to_size_t st_size) = true ∧
    GetComConfiguration ptr = Some com_config ∧
    loader = mkFlatBufferConfigLoader (os_open path)
               (ptr, MmapDeleter.mk (to_size_t st_size)) (Some com_config) ∧
    calls = [sys_open path; sys_fstat (os_open path);
             sys_mmap (to_size_t st_size) (os_open path)].
Proof.
  unfold LoadBuffer.
  destruct (Z.eqb_spec (os_open path) (-1)) as [|Hfd]; [done|].
  destruct (os_fstat (os_open path)) as [st_size|] eqn:Hstat; [|done].
  destruct (Z.eqb_spec st_size 0) as [|Hsize]; [done|].
  destruct (os_mmap _ _) as [ptr|] eqn:Hmmap; [|done].
  destruct (VerifyComConfigurationBuffer _ _) eqn:Hverify; [|done]. simpl.
  destruct (GetComConfiguration ptr) as [com_config|] eqn:Hroot; [|done].
  intros [= <- <-]. exists st_size, ptr, com_config. by split_and!.
Qed.

(** X17. LoadBuffer hands out a loader exactly when [open], [fstat] and
    [mmap] succeed on a file that is not empty, the verifier accepts the
    mapped region and the root is found; the loader then holds that
    descriptor, that region with its size, and that root, after exactly the
    three system calls open, fstat, mmap. No root is ever taken from a region
    that the verifier rejected. *)
Theorem LoadBuffer_returns (path : string) (this loader : FlatBufferConfigLoader)
    (calls : list SysCall) :
  load path this = (calls, inr loader) ↔
  ∃ st_size ptr com_config,
    os_open path ≠ -1 ∧
    os_fstat (os_open path) = Some st_size ∧ st_size ≠ 0 ∧
    os_mmap (to_size_t st_size) (os_open path) = Some ptr ∧
    VerifyComConfigurationBuffer ptr (to_size_t st_size) = true ∧
    GetComConfiguration ptr = Some com_config ∧
    loader = mkFlatBufferConfigLoader (os_open path)
               (ptr, MmapDeleter.mk (to_size_t st_size)) (Some com_config) ∧
    calls = [sys_open path; sys_fstat (os_open path);
             sys_mmap (to_size_t st_size) (os_open path)].
Proof.
  split; [apply LoadBuffer_inversion|].
  intros (st_size & ptr & com_config & Hfd & Hstat & Hsize & Hmmap & Hverify
          & Hroot & -> & ->).
  unfold LoadBuffer.
  destruct (Z.eqb_spec (os_open path) (-1)) as [|_]; [done|]. rewrite Hstat.
  destruct (Z.eqb_spec st_size 0) as [|_]; [done|].
  by rewrite Hmmap, Hverify, Hroot.
Qed.

(** X18. A load that terminates has released nothing, and it has mapped the
    file only if the file could be opened and measured and is not empty: the
    diagnostics for a failed open, a failed fstat and an empty file come
    after at most the two calls open and fstat, and "FlatBuffer file is
    empty" is the diagnostic exactly when [fstat] reports size 0. *)
Theorem LoadBuffer_terminates (path : string) (this : FlatBufferConfigLoader)
    (calls : list SysCall) (d : LoadDiagnostic) :
  load path this = (calls, inl d) →
  (∀ call, call ∈ calls →
     match call with sys_munmap _ _ | sys_close _ => False | _ => True end) ∧
  (d = FailedToOpen ∨ d = FailedToStat ∨ d = FileIsEmpty →
     ∀ call, call ∈ calls →
       match call with sys_mmap _ _ => False | _ => True end) ∧
  (d = FileIsEmpty ↔
     os_open path ≠ -1 ∧ os_fstat (os_open path) = Some 0) ∧
  (d = FailedToOpen ↔ os_open path = -1).
Proof.
  unfold LoadBuffer.
  destruct (Z.eqb_spec (os_open path) (-1)) as [Hfd|Hfd].
  { intros [= <- <-]. split_and!.
    - each_call.
    - intros _. each_call.
    - split; [done | by intros [? _]].
    - done. }
  destruct (os_fstat (os_open path)) as [st_size|] eqn:Hstat.
  2: { intros [= <- <-]. split_and!.
       - each_call.
       - intros _. each_call.
       - split; [done | by intros [_ ?]].
       - done. }
  destruct (Z.eqb_spec st_size 0) as [->|Hsize].
  { intros [= <- <-]. split_and!.
    - each_call.
    - intros _. each_call.
    - done.
    - done. }
  assert (Hnot_empty : ¬ (os_open path ≠ -1 ∧ Some st_size = Some 0))
    by (intros [_ [= ?]]; done).
  destruct (os_mmap _ _) as [ptr|] eqn:Hmmap.
  2: { intros [= <- <-]. split_and!; [|by intros [|[|]]|done|done].
       each_call. }
  destruct (VerifyComConfigurationBuffer _ _); simpl.
  - destruct (GetComConfiguration ptr); [done|].
    intros [= <- <-]. split_and!; [|by intros [|[|]]|done|done].
    each_call.
  - intros [= <- <-]. split_and!; [|by intros [|[|]]|done|done].
    each_call.
Qed.

(** What the operating system guarantees: a successful [mmap] does not give
    the null address, and a file size is an [off_t] value. *)
Hypothesis mmap_not_null : ∀ length fd ptr, os_mmap length fd = Some ptr → ptr ≠ 0.
Hypothesis fstat_off_t : ∀ fd st_size,
  os_fstat fd = Some st_size → - 2 ^ 63 ≤ st_size < 2 ^ 63.

(** X19. When CreateConfiguration returns, the configuration is made of the
    results of the four mappers on the root of a verified region, and the
    system calls of the run are open, fstat, mmap, then close of that
    descriptor and munmap of that region with the mapped size: each acquired
    resource is released exactly once. *)
Theorem CreateConfiguration_returns (order : ArgumentOrder) (path : string)
    (calls : list SysCall) (configuration : Configuration) :
  create order path = (calls, inr (Returned configuration)) →
  ∃ st_size ptr com_config,
    os_fstat (os_open path) = Some st_size ∧
    os_mmap (to_size_t st_size) (os_open path) = Some ptr ∧
    VerifyComConfigurationBuffer ptr (to_size_t st_size) = true ∧
    GetComConfiguration ptr = Some com_config ∧
    CreateServiceTypes com_config = Returned (service_types_ configuration) ∧
    CreateServiceInstances valid com_config =
      Returned (service_instances_ configuration) ∧
    global_configuration_ configuration =
      CreateGlobalConfiguration default_GlobalConfiguration com_config ∧
    tracing_configuration_ configuration =
      CreateTracingConfiguration default_TracingConfiguration com_config ∧
    calls = [sys_open path; sys_fstat (os_open path);
             sys_mmap (to_size_t st_size) (os_open path);
             sys_close (os_open path);
             sys_munmap ptr (to_size_t st_size)].
Proof.
  unfold CreateConfiguration, FlatBufferConfigLoader_new.
  destruct (LoadBuffer _ _ _ _ _ path _) as [calls0 [d|loader]] eqn:Hload; [done|].
  apply LoadBuffer_inversion in Hload
    as (st_size & ptr & com_config & Hfd & Hstat & Hsize & Hmmap & Hverify
        & Hroot & -> & ->).
  destruct (map_sections _ _ _ order _) as [c| |] eqn:Hsections; [|done..].
  intros [= <- <-]. exists st_size, ptr, com_config.
  unfold map_sections in Hsections. simpl in Hsections.
  assert (Hparts :
    CreateServiceTypes com_config = Returned (service_types_ c) ∧
    CreateServiceInstances valid com_config = Returned (service_instances_ c) ∧
    global_configuration_ c =
      CreateGlobalConfiguration default_GlobalConfiguration com_config ∧
    tracing_configuration_ c =
      CreateTracingConfiguration default_TracingConfiguration com_config).
  { destruct order;
      destruct (CreateServiceTypes com_config) as [types| |];
      destruct (CreateServiceInstances valid com_config) as [instances| |];
      simpl in Hsections; try done; by injection Hsections as <-. }
  destruct Hparts as (Htypes & Hinstances & Hglobal & Htracing).
  split_and!; try done.
  unfold FlatBufferConfigLoader_destroy, unique_ptr_destroy, MmapDeleter_call.
  simpl. pose proof (mmap_not_null _ _ _ Hmmap) as Hptr.
  pose proof (fstat_off_t _ _ Hstat) as Hrange.
  destruct (Z.eqb_spec (os_open path) (-1)) as [|_]; [done|].
  destruct (Z.eqb_spec ptr 0) as [|_]; [done|]. simpl.
  assert (0 < to_size_t st_size) as Hpos.
  { unfold to_size_t.
    pose proof (Z.mod_pos_bound st_size (2 ^ 64) ltac:(lia)) as Hbound.
    destruct (decide (st_size mod 2 ^ 64 = 0)) as [Hzero|]; [|lia].
    apply Z.mod_divide in Hzero as [k Hk]; [|lia]. exfalso. nia. }
  by rewrite (proj2 (Z.ltb_lt _ _) Hpos).
Qed.

(** X20. The order in which the mapper calls are evaluated does not change
    whether CreateConfiguration returns nor what it returns, and does not
    change a termination of the load. *)
Theorem CreateConfiguration_argument_order (order order' : ArgumentOrder)
    (path : string) (calls : list SysCall) :
  (∀ configuration,
     create order path = (calls, inr (Returned configuration)) →
     create order' path = (calls, inr (Returned configuration))) ∧
  (∀ d, create order path = (calls, inl d) → create order' path = (calls, inl d)).
Proof.
  unfold CreateConfiguration, FlatBufferConfigLoader_new.
  destruct (LoadBuffer _ _ _ _ _ path _) as [calls0 [d|loader]]; [done|].
  assert (Horder : ∀ c, map_sections valid default_GlobalConfiguration
                          default_TracingConfiguration order loader = Returned c →
                        map_sections valid default_GlobalConfiguration
                          default_TracingConfiguration order' loader = Returned c).
  { intros c. unfold map_sections. destruct (com_config_ loader) as [cfg|]; [|done].
    destruct order, order';
      destruct (CreateServiceTypes cfg) as [types| |];
      destruct (CreateServiceInstances valid cfg) as [instances| |]; by simpl. }
  split.
  - intros c.
    destruct (map_sections _ _ _ order loader) as [c0| |] eqn:Hsections; [|done..].
    intros [= <- <-]. by rewrite (Horder c0 eq_refl).
  - intros d. by destruct (map_sections _ _ _ order loader).
Qed.

(** X21. A run of CreateConfiguration that does not return a configuration
    has released nothing: it made no [close] and no [munmap], and at most the
    three calls open, fstat, mmap. *)
Theorem CreateConfiguration_aborted (order : ArgumentOrder) (path : string)
    (calls : list SysCall) (result : LoadDiagnostic + Outcome Configuration) :
  create order path = (calls, result) →
  (∀ configuration, result ≠ inr (Returned configuration)) →
  (length calls ≤ 3)%nat ∧
  ∀ call, call ∈ calls →
    match call with sys_munmap _ _ | sys_close _ => False | _ => True end.
Proof.
  unfold CreateConfiguration, FlatBufferConfigLoader_new.
  destruct (LoadBuffer _ _ _ _ _ path _) as [calls0 [d|loader]] eqn:Hload.
  - intros [= <- <-] _.
    destruct (LoadBuffer_terminates _ _ _ _ Hload) as (Hrelease & _).
    split; [|done]. revert Hload. unfold LoadBuffer.
    repeat match goal with
           | |- context [if ?b then _ else _] => destruct b
           | |- context [match ?o with Some _ => _ | None => _ end] => destruct o
           end; intros [= <- _]; simpl; lia.
  - apply LoadBuffer_inversion in Hload as (st_size & ptr & cfg & _ & _ & _ & _ & _
                                            & _ & _ & ->).
    destruct (map_sections _ _ _ order loader) as [c| |].
    + intros [= <- <-] Hnot. by destruct (Hnot c).
    + intros [= <- <-] _. split; [simpl; lia|].
      each_call.
    + intros [= <- <-] _. split; [simpl; lia|].
      each_call.
Qed.

End LoaderProperties.

(** * The further properties on the example buffers *)

Lemma ParseEventDeployments_lookup_witness :
  Instance.events sparse_instance =
    Some [None; Some radar_detections; Some radar_detections_late] ∧
  ParseEventDeployments sparse_instance !! "Detections" =
    Some (event_deploy radar_detections).
Proof.
  split; [reflexivity|].
  destruct (proj1 (ParseEventDeployments_lookup sparse_instance "Detections")
              _ eq_refl) as [-> _].
  reflexivity.
Defined.

Lemma ParseFieldDeployments_lookup_witness :
  Instance.fields sparse_instance =
    Some [None; Some radar_state; Some radar_state_late] ∧
  ParseFieldDeployments sparse_instance !! "State" = Some (field_deploy radar_state).
Proof.
  split; [reflexivity|].
  destruct (proj1 (ParseFieldDeployments_lookup sparse_instance "State")
              _ eq_refl) as [-> _].
  reflexivity.
Defined.

Lemma ParseMethodDeployments_lookup_witness :
  Instance.methods sparse_instance =
    Some [None; Some radar_reset; Some radar_reset_late] ∧
  ParseMethodDeployments sparse_instance !! "Reset" = Some (method_deploy radar_reset).
Proof.
  split; [reflexivity|].
  destruct (proj1 (ParseMethodDeployments_lookup sparse_instance "Reset")
              _ eq_refl) as [-> _].
  reflexivity.
Defined.

Lemma ParsePermissions_values_witness :
  uid_list kASIL_QM radar_permissions = Some [1000; 1001] ∧
  Forall (representable 32) [1000; 1001] ∧
  ParsePermissions (Some radar_permissions) !! kASIL_QM = Some [1000; 1001] ∧
  size (ParsePermissions (Some radar_permissions)) = 1%nat.
Proof.
  assert (Hrange : Forall (representable 32) [1000; 1001]).
  { repeat constructor; unfold representable; lia. }
  split; [reflexivity|]. split; [exact Hrange|].
  destruct (ParsePermissions_values radar_permissions) as [Hvalues Hsize].
  split.
  - apply (Hvalues kASIL_QM [1000; 1001] eq_refl). exact Hrange.
  - exact Hsize.
Defined.

Lemma SetMemorySizes_frame_witness :
  Instance.shm_size (radar_shm_instance AsilLevel.B 2) ≤ 0 ∧
  LolaServiceInstanceDeployment.shared_memory_size_
    (SetMemorySizes sized_deployment (radar_shm_instance AsilLevel.B 2)) = Some 7.
Proof.
  assert (Hraw : Instance.shm_size (radar_shm_instance AsilLevel.B 2) ≤ 0)
    by (simpl; lia).
  split; [exact Hraw|].
  destruct (SetMemorySizes_frame sized_deployment (radar_shm_instance AsilLevel.B 2))
    as (_ & Hshared & _).
  rewrite (Hshared Hraw). reflexivity.
Defined.

Lemma binding_id_mappings_distinct_names_witness :
  Binding.events radar_shm_binding = Some [detections_3] ∧
  NoDup (BindingEvent.event_name <$> [detections_3]) ∧
  representable 8 (BindingEvent.event_id detections_3) ∧
  size (EventIdMapping radar_shm_binding) = 1%nat ∧
  EventIdMapping radar_shm_binding !! "Detections" = Some 3.
Proof.
  assert (Hnd : NoDup (BindingEvent.event_name <$> [detections_3]))
    by apply NoDup_singleton.
  assert (Hrep : representable 8 (BindingEvent.event_id detections_3))
    by (unfold representable; simpl; lia).
  split; [reflexivity|]. split; [exact Hnd|]. split; [exact Hrep|].
  destruct (proj1 (binding_id_mappings_distinct_names radar_shm_binding)
              [detections_3] eq_refl Hnd) as [Hsize Hlook].
  split; [exact Hsize|]. apply (Hlook detections_3); [left | exact Hrep].
Defined.

Lemma binding_ids_are_8_bit_witness :
  EventIdMapping wide_id_binding !! "Wide" = Some 3 ∧ representable 8 3.
Proof.
  assert (Hlook : EventIdMapping wide_id_binding !! "Wide" = Some 3)
    by (vm_compute; reflexivity).
  split; [exact Hlook|].
  apply (proj1 (binding_ids_are_8_bit wide_id_binding "Wide" 3) Hlook).
Defined.

Lemma built_deployment_content_witness :
  ∃ e, CreateServiceInstance accepts_abs_radar radar_instance_last = Returned e ∧
       asilLevel_ e.2 = kASIL_B.
Proof.
  eexists. split; [reflexivity|].
  destruct (built_deployment_content accepts_abs_radar radar_instance_last _ eq_refl)
    as (v & i & _ & _ & Hi & _ & _ & Hasil).
  apply Hasil. injection Hi as <-. reflexivity.
Defined.

Lemma global_queue_sizes_witness :
  ComConfiguration.global radar_config = Some radar_global ∧
  process_asil_level_
    (CreateGlobalConfiguration some_GlobalConfiguration radar_config) = kASIL_B ∧
  sender_message_queue_size_
    (CreateGlobalConfiguration some_GlobalConfiguration radar_config) = 20.
Proof.
  split; [reflexivity|].
  destruct (global_queue_sizes some_GlobalConfiguration radar_config radar_global
              eq_refl) as (Hasil & Hsizes & _).
  split.
  - apply Hasil. reflexivity.
  - destruct (Hsizes (QueueSize.mk 10 10 20) eq_refl)
      as (_ & _ & _ & _ & _ & Hsender & _).
    apply Hsender. simpl. lia.
Defined.

Lemma radar_config_types_returned :
  CreateServiceTypes radar_config =
    Returned (foldl (λ acc e, (emplace e.1 e.2 acc).1) ∅ radar_type_entries).
Proof.
  assert (Hall : Forall2 (λ st e, CreateServiceType st = Returned e)
                   (ComConfiguration.service_types radar_config) radar_type_entries)
    by repeat constructor.
  apply (service_type_loop _ _ Hall ∅). split; [|intros; apply lookup_empty].
  apply NoDup_cons. split; [|apply NoDup_singleton].
  intros Hin. apply list_elem_of_singleton in Hin. discriminate Hin.
Qed.

Lemma service_types_mapping_content_witness :
  ∃ m, CreateServiceTypes radar_config = Returned m ∧ size m = 2%nat ∧
       ∀ id d, m !! id = Some d → ∃ lola, binding_info_ d = LolaType lola.
Proof.
  eexists. split; [exact radar_config_types_returned|].
  destruct (service_types_mapping_content radar_config _ radar_config_types_returned)
    as (Hsize & _ & Hlola).
  split; [exact Hsize | exact Hlola].
Defined.

Lemma service_types_first_failure_witness :
  ComConfiguration.service_types config_some_ip_second =
    [radar_type] ++ radar_type_some_ip_only :: [lidar_type] ∧
  CreateServiceType radar_type_some_ip_only = Terminated SomeIpBindingNotSupported ∧
  CreateServiceTypes config_some_ip_second = Terminated SomeIpBindingNotSupported.
Proof.
  split; [reflexivity|]. split; [reflexivity|].
  apply (service_types_first_failure config_some_ip_second [radar_type] [lidar_type]
           radar_type_some_ip_only
           [(make_ServiceIdentifierType "Radar" 1 0,
             mkServiceTypeDeployment
               (LolaType (CreateLolaServiceTypeDeployment radar_shm_binding)))]).
  - reflexivity.
  - repeat constructor.
  - apply NoDup_singleton.
  - reflexivity.
Defined.

Lemma no_shm_binding_for_service_type_witness :
  CreateServiceType radar_type_no_binding =
    Terminated (NoShmBindingForServiceType (make_ServiceIdentifierType "Radar" 1 0)).
Proof.
  apply no_shm_binding_for_service_type. exists radar_version. repeat split.
Defined.

Lemma duplicate_specifier_instances_returned :
  CreateServiceInstances accepts_abs_radar config_duplicate_specifier =
    Returned (foldl (λ acc e, (emplace e.1 e.2 acc).1) ∅
                [radar_instance_entry AsilLevel.QM 1; radar_instance_entry AsilLevel.B 2]).
Proof.
  apply (service_instance_loop_entries accepts_abs_radar). repeat constructor.
Qed.

Lemma service_instances_mapping_content_witness :
  ∃ m, CreateServiceInstances accepts_abs_radar config_duplicate_specifier = Returned m ∧
       is_Some (m !! "abs/radar") ∧ (size m ≤ 2)%nat.
Proof.
  eexists. split; [exact duplicate_specifier_instances_returned|].
  destruct (proj2 (service_instances_mapping_content accepts_abs_radar
                     config_duplicate_specifier) _
              duplicate_specifier_instances_returned)
    as (_ & Hkeys & Hsize).
  split; [|exact Hsize]. apply (Hkeys radar_instance_first). left.
Defined.


Lemma service_instances_diagnostics_witness :
  ServiceInstance.instances radar_instance_some_ip_only = Some [some_ip_instance] ∧
  Instance.binding some_ip_instance = BindingType.SOME_IP ∧
  CreateServiceInstances accepts_abs_radar config_instance_some_ip_only =
    Terminated SomeIpBindingCannotBeParsed ∧
  (∀ id, SomeIpBindingCannotBeParsed ≠ NoShmBindingFound id) ∧
  (∀ id, CreateServiceInstances accepts_abs_radar config_instance_some_ip_only ≠
           Terminated (NoShmBindingFound id)).
Proof.
  assert (Hrun : CreateServiceInstances accepts_abs_radar config_instance_some_ip_only =
                 Terminated SomeIpBindingCannotBeParsed) by reflexivity.
  split; [reflexivity|]. split; [reflexivity|]. split; [exact Hrun|]. split.
  - exact (proj2 (service_instances_diagnostics accepts_abs_radar
                    config_instance_some_ip_only SomeIpBindingCannotBeParsed Hrun)).
  - intros id Hid.
    destruct (service_instances_diagnostics accepts_abs_radar
                config_instance_some_ip_only (NoShmBindingFound id) Hid) as [_ Hnever].
    exact (Hnever id eq_refl).
Defined.

Lemma service_instance_diagnostic_witness :
  CreateServiceInstance accepts_abs_radar radar_instance_bad_specifier =
    Terminated InvalidInstanceSpecifier ∧
  CreateServiceInstance accepts_abs_radar radar_instance_two_shm =
    Terminated (MultipleShmBindings (make_ServiceIdentifierType "Radar" 1 0)).
Proof.
  split.
  - apply (service_instance_diagnostic accepts_abs_radar). reflexivity.
  - destruct (proj2 (service_instance_diagnostic accepts_abs_radar
                       radar_instance_two_shm)
                radar_version (radar_shm_instance AsilLevel.QM 1)
                [radar_shm_instance AsilLevel.B 2] eq_refl eq_refl eq_refl)
      as (_ & _ & Hsecond).
    apply (Hsecond (radar_shm_instance AsilLevel.B 2) [] eq_refl eq_refl).
Defined.

Lemma LoadBuffer_returns_witness :
  LoadBuffer one_file_open one_file_fstat one_file_mmap accepts_at_4096 radar_root
    config_path (mkFlatBufferConfigLoader (-1) (0, MmapDeleter.mk 0) None) =
  ([sys_open config_path; sys_fstat 3; sys_mmap 512 3],
   inr (mkFlatBufferConfigLoader 3 (4096, MmapDeleter.mk 512) (Some radar_config))).
Proof.
  apply LoadBuffer_returns. exists 512, 4096, radar_config.
  split_and!; try reflexivity; discriminate.
Defined.

Lemma LoadBuffer_terminates_witness :
  LoadBuffer one_file_open one_file_fstat one_file_mmap accepts_at_4096 radar_root
    "/missing" (mkFlatBufferConfigLoader (-1) (0, MmapDeleter.mk 0) None) =
    ([sys_open "/missing"], inl FailedToOpen) ∧
  one_file_open "/missing" = -1.
Proof.
  split; [reflexivity|].
  apply (LoadBuffer_terminates one_file_open one_file_fstat one_file_mmap
           accepts_at_4096 radar_root "/missing"
           (mkFlatBufferConfigLoader (-1) (0, MmapDeleter.mk 0) None)
           [sys_open "/missing"] FailedToOpen eq_refl).
  reflexivity.
Defined.

Lemma one_file_mmap_not_null length fd ptr :
  one_file_mmap length fd = Some ptr → ptr ≠ 0.
Proof. unfold one_file_mmap. destruct (fd =? 3); [by intros [= <-] | done]. Qed.

Lemma one_file_fstat_off_t fd st_size :
  one_file_fstat fd = Some st_size → - 2 ^ 63 ≤ st_size < 2 ^ 63.
Proof.
  unfold one_file_fstat. destruct (fd =? 3); [|done]. intros [= <-]. lia.
Qed.

Lemma radar_config_instances_returned :
  CreateServiceInstances accepts_abs_radar radar_config =
    Returned (foldl (λ acc e, (emplace e.1 e.2 acc).1) ∅
                [radar_instance_entry AsilLevel.QM 1]).
Proof.
  apply (service_instance_loop_entries accepts_abs_radar). repeat constructor.
Qed.

Lemma one_file_created (order : ArgumentOrder) :
  CreateConfiguration one_file_open one_file_fstat one_file_mmap accepts_at_4096
    radar_root accepts_abs_radar some_GlobalConfiguration some_TracingConfiguration
    order config_path =
  ([sys_open config_path; sys_fstat 3; sys_mmap 512 3; sys_close 3;
    sys_munmap 4096 512],
   inr (Returned
          (mkConfiguration
             (foldl (λ acc e, (emplace e.1 e.2 acc).1) ∅ radar_type_entries)
             (foldl (λ acc e, (emplace e.1 e.2 acc).1) ∅
                [radar_instance_entry AsilLevel.QM 1])
             (CreateGlobalConfiguration some_GlobalConfiguration radar_config)
             (CreateTracingConfiguration some_TracingConfiguration radar_config)))).
Proof.
  unfold CreateConfiguration, FlatBufferConfigLoader_new.
  replace (LoadBuffer _ _ _ _ _ config_path _)
    with ([sys_open config_path; sys_fstat 3; sys_mmap 512 3],
          inr (B := FlatBufferConfigLoader) (A := LoadDiagnostic)
            (mkFlatBufferConfigLoader 3 (4096, MmapDeleter.mk 512) (Some radar_config)))
    by reflexivity.
  unfold map_sections. cbn [com_config_].
  rewrite radar_config_types_returned, radar_config_instances_returned.
  by destruct order.
Qed.

Lemma CreateConfiguration_returns_witness :
  (∀ length fd ptr, one_file_mmap length fd = Some ptr → ptr ≠ 0) ∧
  (∀ fd st_size, one_file_fstat fd = Some st_size → - 2 ^ 63 ≤ st_size < 2 ^ 63) ∧
  ∃ configuration,
    CreateConfiguration one_file_open one_file_fstat one_file_mmap accepts_at_4096
      radar_root accepts_abs_radar some_GlobalConfiguration some_TracingConfiguration
      TypesBeforeInstances config_path =
    ([sys_open config_path; sys_fstat 3; sys_mmap 512 3; sys_close 3;
      sys_munmap 4096 512],
     inr (Returned configuration)) ∧
    CreateServiceTypes radar_config = Returned (service_types_ configuration).
Proof.
  split; [exact one_file_mmap_not_null|]. split; [exact one_file_fstat_off_t|].
  eexists. split; [exact (one_file_created TypesBeforeInstances)|].
  destruct (CreateConfiguration_returns one_file_open one_file_fstat one_file_mmap
              accepts_at_4096 radar_root accepts_abs_radar some_GlobalConfiguration
              some_TracingConfiguration one_file_mmap_not_null one_file_fstat_off_t
              TypesBeforeInstances config_path _ _
              (one_file_created TypesBeforeInstances))
    as (st_size & ptr & com_config & _ & Hmmap & _ & Hroot & Htypes & _).
  injection Hmmap as <-. injection Hroot as <-. exact Htypes.
Defined.

Lemma CreateConfiguration_argument_order_witness :
  ∃ calls configuration,
    CreateConfiguration one_file_open one_file_fstat one_file_mmap accepts_at_4096
      radar_root accepts_abs_radar some_GlobalConfiguration some_TracingConfiguration
      TypesBeforeInstances config_path = (calls, inr (Returned configuration)) ∧
    CreateConfiguration one_file_open one_file_fstat one_file_mmap accepts_at_4096
      radar_root accepts_abs_radar some_GlobalConfiguration some_TracingConfiguration
      InstancesBeforeTypes config_path = (calls, inr (Returned configuration)).
Proof.
  eexists _, _. split; [exact (one_file_created TypesBeforeInstances)|].
  apply (proj1 (CreateConfiguration_argument_order one_file_open one_file_fstat
                  one_file_mmap accepts_at_4096 radar_root accepts_abs_radar
                  some_GlobalConfiguration some_TracingConfiguration
                  TypesBeforeInstances InstancesBeforeTypes config_path _)).
  exact (one_file_created TypesBeforeInstances).
Defined.

Lemma some_ip_type_aborts :
  CreateConfiguration one_file_open one_file_fstat one_file_mmap accepts_at_4096
    some_ip_type_root accepts_abs_radar some_GlobalConfiguration
    some_TracingConfiguration TypesBeforeInstances config_path =
  ([sys_open config_path; sys_fstat 3; sys_mmap 512 3],
   inr (Terminated SomeIpBindingNotSupported)).
Proof. vm_compute. reflexivity. Qed.

Lemma CreateConfiguration_aborted_witness :
  CreateConfiguration one_file_open one_file_fstat one_file_mmap accepts_at_4096
    some_ip_type_root accepts_abs_radar some_GlobalConfiguration
    some_TracingConfiguration TypesBeforeInstances config_path =
  ([sys_open config_path; sys_fstat 3; sys_mmap 512 3],
   inr (Terminated SomeIpBindingNotSupported)) ∧
  (length [sys_open config_path; sys_fstat 3; sys_mmap 512 3] ≤ 3)%nat ∧
  ∀ call, call ∈ [sys_open config_path; sys_fstat 3; sys_mmap 512 3] →
    match call with sys_munmap _ _ | sys_close _ => False | _ => True end.
Proof.
  split; [exact some_ip_type_aborts|].
  apply (CreateConfiguration_aborted one_file_open one_file_fstat one_file_mmap
           accepts_at_4096 some_ip_type_root accepts_abs_radar
           some_GlobalConfiguration some_TracingConfiguration TypesBeforeInstances
           config_path [sys_open config_path; sys_fstat 3; sys_mmap 512 3]
           (inr (Terminated SomeIpBindingNotSupported)) some_ip_type_aborts).
  intros configuration. discriminate.
Defined.

(** * The zero-sentinel fields, as the deployment holds them *)

(** C3 as stated fails: an event of the instance with a raw max-subscriber
    count of 256 is stored with the present optional carrying 0, not 256:
    [static_cast<uint8_t>] wraps the positive raw value. *)
Lemma max_subscribers_256_is_stored_as_0 :
  Instance.events overfull_instance = Some [Some radar_detections_256] ∧
  InstanceEvent.max_subscribers radar_detections_256 = 256 ∧
  LolaEventInstanceDeployment.max_subscribers_ <$>
    (LolaServiceInstanceDeployment.events_
       (CreateLolaServiceInstanceDeployment overfull_instance) !! "Detections") =
    Some (Some 0) ∧
  ¬ zero_sentinel 256 (Some 0).
Proof.
  split_and!; [reflexivity | reflexivity | vm_compute; reflexivity |].
  intros [_ Hpos]. discriminate Hpos. reflexivity.
Qed.

(** C3, as the code has it. The zero-sentinel fields of a deployment: instance
    id, sample-slot count and max-subscriber count of every stored event and
    field, queue size of every stored method, the three shared-memory sizes,
    and the application id. A raw 0 is the unset optional and a raw v > 0 is
    the present optional carrying exactly v, for every raw value
    representable in the type the source converts the field to: 16 bits for
    a sample-slot count, 8 bits for a max-subscriber count and a queue size,
    [std::size_t] for a size; instance id and application id are stored
    without conversion. An event, field or method is stored under its name
    when it is the first entry of that name that is not null. *)
Theorem zero_sentinel_rule
    (instance : Instance.t) (com_config : ComConfiguration.t)
    (global : Global.t) (default_GlobalConfiguration : GlobalConfiguration) :
  representable 64 (Instance.shm_size instance) →
  representable 64 (Instance.control_asil_b_shm_size instance) →
  representable 64 (Instance.control_qm_shm_size instance) →
  application_id_ default_GlobalConfiguration = None →
  ComConfiguration.global com_config = Some global →
  let d := CreateLolaServiceInstanceDeployment instance in
  zero_sentinel (Instance.instance_id instance)
    (LolaServiceInstanceDeployment.instance_id_ d) ∧
  (∀ l name event,
     Instance.events instance = Some l →
     first_with InstanceEvent.event_name name (non_null l) = Some event →
     representable 16 (InstanceEvent.number_of_sample_slots event) →
     representable 8 (InstanceEvent.max_subscribers event) →
     ∃ stored,
       LolaServiceInstanceDeployment.events_ d !! name = Some stored ∧
       zero_sentinel (InstanceEvent.number_of_sample_slots event)
         (LolaEventInstanceDeployment.number_of_sample_slots_ stored) ∧
       zero_sentinel (InstanceEvent.max_subscribers event)
         (LolaEventInstanceDeployment.max_subscribers_ stored)) ∧
  (∀ l name field,
     Instance.fields instance = Some l →
     first_with InstanceField.field_name name (non_null l) = Some field →
     representable 16 (InstanceField.number_of_sample_slots field) →
     representable 8 (InstanceField.max_subscribers field) →
     ∃ stored,
       LolaServiceInstanceDeployment.fields_ d !! name = Some stored ∧
       zero_sentinel (InstanceField.number_of_sample_slots field)
         (LolaFieldInstanceDeployment.number_of_sample_slots_ stored) ∧
       zero_sentinel (InstanceField.max_subscribers field)
         (LolaFieldInstanceDeployment.max_subscribers_ stored)) ∧
  (∀ l name method,
     Instance.methods instance = Some l →
     first_with InstanceMethod.method_name name (non_null l) = Some method →
     representable 8 (InstanceMethod.queue_size method) →
     ∃ stored,
       LolaServiceInstanceDeployment.methods_ d !! name = Some stored ∧
       zero_sentinel (InstanceMethod.queue_size method)
         (LolaMethodInstanceDeployment.queue_size_ stored)) ∧
  zero_sentinel (Instance.shm_size instance)
    (LolaServiceInstanceDeployment.shared_memory_size_ d) ∧
  zero_sentinel (Instance.control_asil_b_shm_size instance)
    (LolaServiceInstanceDeployment.control_asil_b_memory_size_ d) ∧
  zero_sentinel (Instance.control_qm_shm_size instance)
    (LolaServiceInstanceDeployment.control_qm_memory_size_ d) ∧
  zero_sentinel (Global.application_id global)
    (application_id_
       (CreateGlobalConfiguration default_GlobalConfiguration com_config)).
Proof.
  intros Hshm Hb Hqm Hdefault Hglobal d. subst d. split_and!.
  - split; intros Hraw; simpl.
    + by rewrite Hraw.
    + destruct (Z.eqb_spec (Instance.instance_id instance) 0); [lia | done].
  - intros l name event Hl Hfirst Hslots Hsubs.
    exists (event_deploy event). split_and!.
    + change (ParseEventDeployments instance !! name = Some (event_deploy event)).
      unfold ParseEventDeployments. rewrite Hl.
      rewrite (lookup_foldl_emplace_non_null InstanceEvent.event_name event_deploy),
        lookup_empty.
      by rewrite Hfirst.
    + by apply guarded_conversion, to_uint16_representable.
    + by apply guarded_conversion, to_uint8_representable.
  - intros l name field Hl Hfirst Hslots Hsubs.
    exists (field_deploy field). split_and!.
    + change (ParseFieldDeployments instance !! name = Some (field_deploy field)).
      unfold ParseFieldDeployments. rewrite Hl.
      rewrite (lookup_foldl_emplace_non_null InstanceField.field_name field_deploy),
        lookup_empty.
      by rewrite Hfirst.
    + by apply guarded_conversion, to_uint16_representable.
    + by apply guarded_conversion, to_uint8_representable.
  - intros l name method Hl Hfirst Hqueue.
    exists (method_deploy method). split.
    + change (ParseMethodDeployments instance !! name = Some (method_deploy method)).
      unfold ParseMethodDeployments. rewrite Hl.
      rewrite (lookup_foldl_emplace_non_null InstanceMethod.method_name method_deploy),
        lookup_empty.
      by rewrite Hfirst.
    + by apply guarded_conversion, to_uint8_representable.
  - by apply (guarded_conversion to_size_t), to_size_t_representable.
  - by apply (guarded_conversion to_size_t), to_size_t_representable.
  - by apply (guarded_conversion to_size_t), to_size_t_representable.
  - split; intros Hraw; unfold CreateGlobalConfiguration; rewrite Hglobal.
    + rewrite Hraw. simpl. destruct (Global.queue_size global); by simpl.
    + destruct (Z.eqb_spec (Global.application_id global) 0) as [|_]; [lia|].
      destruct (Global.queue_size global); by simpl.
Qed.

Lemma zero_sentinel_rule_witness :
  representable 64 (Instance.shm_size (radar_shm_instance AsilLevel.B 2)) ∧
  representable 64 (Instance.control_asil_b_shm_size (radar_shm_instance AsilLevel.B 2)) ∧
  representable 64 (Instance.control_qm_shm_size (radar_shm_instance AsilLevel.B 2)) ∧
  application_id_ some_GlobalConfiguration = None ∧
  ComConfiguration.global radar_config = Some radar_global ∧
  representable 16 (InstanceEvent.number_of_sample_slots radar_detections) ∧
  representable 8 (InstanceEvent.max_subscribers radar_detections) ∧
  representable 8 (InstanceMethod.queue_size radar_reset) ∧
  (∃ stored,
     LolaServiceInstanceDeployment.events_
       (CreateLolaServiceInstanceDeployment (radar_shm_instance AsilLevel.B 2))
       !! "Detections" = Some stored ∧
     zero_sentinel 4 (LolaEventInstanceDeployment.number_of_sample_slots_ stored) ∧
     zero_sentinel 2 (LolaEventInstanceDeployment.max_subscribers_ stored)) ∧
  (∃ stored,
     LolaServiceInstanceDeployment.methods_
       (CreateLolaServiceInstanceDeployment (radar_shm_instance AsilLevel.B 2))
       !! "Reset" = Some stored ∧
     zero_sentinel 5 (LolaMethodInstanceDeployment.queue_size_ stored)) ∧
  zero_sentinel 4096
    (LolaServiceInstanceDeployment.control_asil_b_memory_size_
       (CreateLolaServiceInstanceDeployment (radar_shm_instance AsilLevel.B 2))) ∧
  zero_sentinel 0
    (LolaServiceInstanceDeployment.shared_memory_size_
       (CreateLolaServiceInstanceDeployment (radar_shm_instance AsilLevel.B 2))) ∧
  zero_sentinel 0
    (application_id_ (CreateGlobalConfiguration some_GlobalConfiguration radar_config)).
Proof.
  assert (Hrep : ∀ bits v, (0 <=? v) && (v <? 2 ^ bits) = true → representable bits v).
  { intros bits v Hb. apply andb_prop in Hb as [H0 H1].
    apply Z.leb_le in H0. apply Z.ltb_lt in H1. split; assumption. }
  assert (Hshm : representable 64 (Instance.shm_size (radar_shm_instance AsilLevel.B 2)))
    by (apply Hrep; reflexivity).
  assert (Hb : representable 64
                 (Instance.control_asil_b_shm_size (radar_shm_instance AsilLevel.B 2)))
    by (apply Hrep; reflexivity).
  assert (Hqm : representable 64
                  (Instance.control_qm_shm_size (radar_shm_instance AsilLevel.B 2)))
    by (apply Hrep; reflexivity).
  assert (Hslots : representable 16 (InstanceEvent.number_of_sample_slots radar_detections))
    by (apply Hrep; reflexivity).
  assert (Hsubs : representable 8 (InstanceEvent.max_subscribers radar_detections))
    by (apply Hrep; reflexivity).
  assert (Hqueue : representable 8 (InstanceMethod.queue_size radar_reset))
    by (apply Hrep; reflexivity).
  destruct (zero_sentinel_rule (radar_shm_instance AsilLevel.B 2) radar_config
              radar_global some_GlobalConfiguration Hshm Hb Hqm eq_refl eq_refl)
    as (_ & Hevents & _ & Hmethods & Hshared & Hcontrol_b & _ & Happ).
  split_and!; try assumption; try reflexivity.
  - exact (Hevents [Some radar_detections] "Detections" radar_detections
             eq_refl eq_refl Hslots Hsubs).
  - exact (Hmethods [Some radar_reset] "Reset" radar_reset eq_refl eq_refl Hqueue).
Defined.
